(** * Ingestion pipeline (src/ingestion/ingest.py): a shallow embedding

    The script is sequential orchestration around external collaborators
    (the file system, the process environment, the YAML loader, the Docling
    reader, the ChromaDB client and the LlamaIndex indexer).  The embedding
    keeps the control flow of the four methods of [IngestionPipeline]
    ([__init__], [load_documents], [create_vector_store], [run]) as the
    source has it, over an explicit [World] that stands for everything
    outside the process, and a state-and-exception monad for Python's
    statements and [try]/[except].

    The libraries are modelled as far as the script depends on them.  What
    they decide for reasons of their own is a component of the [World]: what
    the reader makes of a file, whether a constructor, a call of the
    backend or the creation of a directory is refused, what the indexer
    makes of the documents and what it had stored when it fails.

    Not modelled: wall-clock values (timestamps of log records and the
    rounded latencies are kept as an opaque field value); the logging
    backend's level filter (the log of the model is the sequence of records
    handed to [StructuredLogger._log]); and the identity of files under
    different spellings of their path (the file system is a map from the
    paths, as the program spells them, to what they name). *)

From Stdlib Require Import String Ascii List ZArith QArith Lia DecimalString.
From stdpp Require Import base option gmap strings list.

Local Open Scope string_scope.
Local Open Scope list_scope.
Local Open Scope Z_scope.
Local Open Scope nat_scope.

(** ** Shell-style name matching, as [pathlib.Path.glob] applies it

    [Path.glob(pattern)] with a one-component pattern lists the directory
    and keeps the entry names that [fnmatch.translate(pattern)] matches in
    full.  On POSIX the match is case-sensitive, and dot-files are not
    special.  Characters are the characters of Rocq's [string]. *)

Module Fnmatch.

(** One item of a bracket expression: a closed range of characters; a
    single character [c] is the range from [c] to [c]. *)
Definition Range : Type := ascii * ascii.

Inductive Tok : Type :=
| TStar                                        (* [*]: any run of characters *)
| TAny                                         (* [?]: any one character *)
| TLit (c : ascii)                             (* the character itself *)
| TSet (negate : bool) (items : list Range).   (* [[seq]] and [[!seq]] *)

(** Splits at the first [']']: the characters before it, and the rest
    after it; [None] when there is none. *)
Fixpoint scan_close (s : list ascii) : option (list ascii * list ascii) :=
  match s with
  | [] => None
  | c :: s' =>
      if Ascii.eqb c "]" then Some ([], s')
      else match scan_close s' with
           | Some (b, r) => Some (c :: b, r)
           | None => None
           end
  end.

(** The text of a bracket expression, given the pattern after its ['['].
    As in [fnmatch.translate]: a leading ['!'] and then a leading [']']
    belong to the expression, which ends at the next [']']. *)
Definition set_body (s : list ascii) : option (list ascii * list ascii) :=
  let '(bang, s1) :=
    match s with
    | c :: t => if Ascii.eqb c "!" then ([c], t) else ([], s)
    | [] => ([], s)
    end in
  let '(rb, s2) :=
    match s1 with
    | c :: t => if Ascii.eqb c "]" then ([c], t) else ([], s1)
    | [] => ([], s1)
    end in
  match scan_close s2 with
  | Some (b, rest) => Some (bang ++ rb ++ b, rest)
  | None => None
  end.

(** Ranges of a bracket expression: [lo-hi] is a range when a character
    stands on both sides of the hyphen; a hyphen at either end is itself. *)
Fixpoint set_items (body : list ascii) : list Range :=
  match body with
  | [] => []
  | lo :: rest =>
      match rest with
      | dash :: hi :: rest' =>
          if Ascii.eqb dash "-" then (lo, hi) :: set_items rest'
          else (lo, lo) :: set_items rest
      | _ => (lo, lo) :: set_items rest
      end
  end.

Definition mk_set (body : list ascii) : Tok :=
  match body with
  | c :: t => if Ascii.eqb c "!" then TSet true (set_items t)
              else TSet false (set_items body)
  | [] => TSet false []
  end.

(** [fnmatch.translate], with the regular expression kept as tokens.  An
    unclosed ['['] is a literal.  Every step consumes a character, so
    the length of the pattern is enough fuel. *)
Fixpoint translate_fuel (fuel : nat) (pat : list ascii) : list Tok :=
  match fuel with
  | O => []
  | S fuel' =>
      match pat with
      | [] => []
      | c :: rest =>
          if Ascii.eqb c "*" then TStar :: translate_fuel fuel' rest
          else if Ascii.eqb c "?" then TAny :: translate_fuel fuel' rest
          else if Ascii.eqb c "[" then
            match set_body rest with
            | Some (body, after) => mk_set body :: translate_fuel fuel' after
            | None => TLit c :: translate_fuel fuel' rest
            end
          else TLit c :: translate_fuel fuel' rest
      end
  end.

Definition translate (pat : list ascii) : list Tok :=
  translate_fuel (length pat) pat.

Definition in_range (c : ascii) (r : Range) : bool :=
  (nat_of_ascii (fst r) <=? nat_of_ascii c)
  && (nat_of_ascii c <=? nat_of_ascii (snd r)).

Definition tok_accepts (t : Tok) (c : ascii) : bool :=
  match t with
  | TStar | TAny => true
  | TLit c' => Ascii.eqb c' c
  | TSet negate items => xorb negate (existsb (in_range c) items)
  end.

(** Full match of a name against the tokens. *)
Fixpoint fullmatch (p : list Tok) (s : list ascii) {struct p} : bool :=
  match p with
  | [] => match s with [] => true | _ :: _ => false end
  | TStar :: p' =>
      (fix star (s : list ascii) : bool :=
         fullmatch p' s
         || match s with
            | [] => false
            | _ :: s' => star s'
            end) s
  | t :: p' =>
      match s with
      | [] => false
      | c :: s' => tok_accepts t c && fullmatch p' s'
      end
  end.

Definition fnmatch (name pat : string) : bool :=
  fullmatch (translate (list_ascii_of_string pat)) (list_ascii_of_string name).

(** The characters that start a wildcard in a pattern. *)
Definition is_magic (c : ascii) : bool :=
  Ascii.eqb c "*" || Ascii.eqb c "?" || Ascii.eqb c "[".

Definition has_magic (s : string) : bool :=
  existsb is_magic (list_ascii_of_string s).

End Fnmatch.

(** ** Paths ([pathlib.PurePosixPath]) *)

(** A path is its root (empty, ["/"] or ["//"]) and its components. *)
Record Path : Type := mkPath { root : string; parts : list string }.

#[global] Instance Path_eq_dec : EqDecision Path.
Proof. solve_decision. Defined.

(** [s.split('/')] *)
Fixpoint split_sep (s : string) : list string :=
  match s with
  | EmptyString => [EmptyString]
  | String c s' =>
      if Ascii.eqb c "/" then EmptyString :: split_sep s'
      else match split_sep s' with
           | h :: t => String c h :: t
           | [] => [String c EmptyString]
           end
  end.

(** The root of a POSIX path: exactly two leading slashes are kept, any
    other number of them is one. *)
Definition split_root (s : string) : string :=
  match s with
  | String "/" (String "/" (String "/" _)) => "/"
  | String "/" (String "/" _) => "//"
  | String "/" _ => "/"
  | _ => ""
  end.

Definition keep_part (x : string) : bool :=
  negb (String.eqb x "") && negb (String.eqb x ".").

(** [Path(s)]: empty and ["."] components are dropped. *)
Definition Path_of (s : string) : Path :=
  mkPath (split_root s) (List.filter keep_part (split_sep s)).

(** [str(p)] *)
Definition str (p : Path) : string :=
  match root p, parts p with
  | EmptyString, [] => "."
  | r, ps => r +:+ String.concat "/" ps
  end.

(** [p / name], for a name that is one component. *)
Definition joinpath (p : Path) (name : string) : Path :=
  mkPath (root p) (parts p ++ [name]).

(** ** Data model *)

(** An exception instance: its class and [str(e)].  Only instances of
    [Exception] are modelled, which is what every handler of the script
    catches. *)
Record Exception : Type := mkExn { exn_class : string; exn_msg : string }.

(** A Docling document: extracted text and source metadata. *)
Record Document : Type := mkDoc {
  doc_text : string;
  doc_metadata : list (string * string)
}.

#[global] Instance Document_eq_dec : EqDecision Document.
Proof. solve_decision. Defined.

(** What the indexer stores in a collection for one passage (the embedding
    itself, a vector of floats, is left out). *)
Record Entry : Type := mkEntry {
  entry_text : string;
  entry_metadata : list (string * string)
}.

(** The configuration file, with the keys the script reads.  The two keys
    read through [dict.get] with a default are optional. *)
Record Config : Type := mkConfig {
  embedding_model : string;
  embedding_api_key_env : string;
  llm_model : string;
  llm_temperature : Q;
  chunking_chunk_size : Z;
  chunking_chunk_overlap : Z;
  ingestion_data_directory : string;
  ingestion_supported_formats : list string;
  vector_db_host : string;
  vector_db_port : Z;
  vector_db_collection_name : string;
  vector_db_persist_directory : option string;
  logging_level : option string
}.

(** The process-wide [llama_index.core.Settings]. *)
Record Settings : Type := mkSettings {
  embed_model : option (string * string);      (* model_name, api_key *)
  llm : option (string * string * Q);          (* model, api_key, temperature *)
  node_parser : option (Z * Z)                 (* chunk_size, chunk_overlap *)
}.

Inductive Level : Type := INFO | WARNING | ERROR.

(** A value of an extra field of a log record.  [JSeconds] stands for a
    rounded wall-clock latency. *)
Inductive Json : Type :=
| JStr (s : string)
| JInt (n : Z)
| JBool (b : bool)
| JSeconds.

(** The entry built by [StructuredLogger._log], without its timestamp. *)
Record LogRecord : Type := mkLog {
  level : Level;
  message : string;
  extra : list (string * Json)
}.

(** A ChromaDB client: embedded and persistent, or remote. *)
Inductive Client : Type :=
| PersistentClient (path : string)
| HttpClient (host : string) (port : Z).

#[global] Instance Client_eq_dec : EqDecision Client.
Proof. solve_decision. Defined.

#[global] Instance Client_countable : Countable Client.
Proof.
  refine (inj_countable'
            (fun c => match c with
                      | PersistentClient p => inl p
                      | HttpClient h n => inr (h, n)
                      end)
            (fun s => match s with
                      | inl p => PersistentClient p
                      | inr (h, n) => HttpClient h n
                      end) _).
  intros [p | h n]; reflexivity.
Defined.

(** A collection handle, as [get_or_create_collection] returns it. *)
Record Collection : Type := mkCollection {
  collection_client : Client;
  collection_name : string
}.

(** [ChromaVectorStore(chroma_collection=...)] *)
Record VectorStore : Type := ChromaVectorStore {
  chroma_collection : Collection
}.

(** A [VectorStoreIndex]: where it lives and what it holds. *)
Record Index : Type := mkIndex {
  index_store : VectorStore;
  index_entries : list Entry
}.

(** What a path names in the file system.  [NoAccess] is an entry whose
    [stat] fails with a permission error. *)
Inductive FsNode : Type :=
| Dir (entries : list string)      (* names, in the order the OS lists them *)
| File
| NoAccess.

(** Calls that leave the process, in the order they are made. *)
Inductive Event : Type :=
| EvOpen (path : string)                         (* open(path, 'r') *)
| EvStat (path : string)                         (* Path.exists *)
| EvGlob (dir pattern : string)                  (* Path.glob *)
| EvLoadData (file_path : string)                (* DoclingReader.load_data *)
| EvMakedirs (path : string)                     (* os.makedirs *)
| EvClient (c : Client)                          (* chromadb.*Client(...) *)
| EvDeleteCollection (c : Client) (name : string)
| EvGetOrCreateCollection (c : Client) (name : string)
| EvFromDocuments (vs : VectorStore) (n : nat).  (* VectorStoreIndex.from_documents *)

Inductive Outcome (A : Type) : Type :=
| Return (a : A)
| Raise (e : Exception).
Arguments Return {A} a.
Arguments Raise {A} e.

(** Operations of the vector-store backend that may be refused for reasons
    of its own (outage, authentication, a locked database). *)
Inductive ChromaOp : Type :=
| OpConnect (c : Client)
| OpDelete (c : Client) (name : string)
| OpGetOrCreate (c : Client) (name : string)
| OpAdd (c : Client) (name : string).

(** What an attribute of the module [logging] holds, as far as
    [Logger.setLevel] tells values apart: an integer (a [bool] is one), a
    string, or anything else, with its [repr]. *)
Inductive Attribute : Type :=
| AnInt (n : nat)
| AStr (s : string)
| AnObject (repr : string).

(** The constructors of the libraries that [__init__] calls.  Each may fail
    for reasons of the library's own (a model the provider does not know, a
    refused key, no network, a missing tokenizer). *)
Inductive Constructor : Type :=
| NewGeminiEmbedding (model_name api_key : string)
| NewGemini (model api_key : string) (temperature : Q)
| NewSentenceSplitter (chunk_size chunk_overlap : Z)
| NewDoclingReader.

(** Everything outside the process. *)
Record World : Type := mkWorld {
  environ : gmap string string;                       (* os.environ *)
  yaml_files : gmap string (option Config);           (* [Some None]: not valid YAML *)
  logging_attr : string -> option Attribute;          (* [logging.<name>], level constants apart *)
  fs : gmap string FsNode;
  os_error : string -> option Exception;              (* why the OS refuses to create a directory *)
  docling : string -> Outcome (list Document);        (* what the reader makes of a file *)
  constructor_error : Constructor -> option Exception;
  chroma : gmap Client (gmap string (list Entry));    (* backends and their collections *)
  chroma_error : ChromaOp -> option Exception;
  indexing : Settings -> list Document -> Outcome (list Entry);   (* chunking and embedding *)
  partial_index : Settings -> list Document -> list Entry;  (* what a failing indexing had stored *)
  settings : Settings;
  log : list LogRecord;
  trace : list Event
}.

Definition set_fs (f : gmap string FsNode) (w : World) : World :=
  mkWorld (environ w) (yaml_files w) (logging_attr w) f (os_error w) (docling w)
          (constructor_error w) (chroma w) (chroma_error w) (indexing w) (partial_index w)
          (settings w) (log w) (trace w).

Definition set_chroma (c : gmap Client (gmap string (list Entry))) (w : World) : World :=
  mkWorld (environ w) (yaml_files w) (logging_attr w) (fs w) (os_error w) (docling w)
          (constructor_error w) c (chroma_error w) (indexing w) (partial_index w)
          (settings w) (log w) (trace w).

Definition set_settings (s : Settings) (w : World) : World :=
  mkWorld (environ w) (yaml_files w) (logging_attr w) (fs w) (os_error w) (docling w)
          (constructor_error w) (chroma w) (chroma_error w) (indexing w) (partial_index w)
          s (log w) (trace w).

Definition set_log (l : list LogRecord) (w : World) : World :=
  mkWorld (environ w) (yaml_files w) (logging_attr w) (fs w) (os_error w) (docling w)
          (constructor_error w) (chroma w) (chroma_error w) (indexing w) (partial_index w)
          (settings w) l (trace w).

Definition set_trace (t : list Event) (w : World) : World :=
  mkWorld (environ w) (yaml_files w) (logging_attr w) (fs w) (os_error w) (docling w)
          (constructor_error w) (chroma w) (chroma_error w) (indexing w) (partial_index w)
          (settings w) (log w) t.

(** ** Statements: state and exceptions *)

Definition M (A : Type) : Type := World -> Outcome A * World.

Definition ret {A : Type} (a : A) : M A := fun w => (Return a, w).

Definition bind {A B : Type} (c : M A) (k : A -> M B) : M B :=
  fun w =>
    match c w with
    | (Return a, w') => k a w'
    | (Raise e, w') => (Raise e, w')
    end.

(** [raise e] *)
Definition raise {A : Type} (e : Exception) : M A := fun w => (Raise e, w).

(** [try: body except Exception as e: handler(e)] *)
Definition try_except {A : Type} (body : M A) (handler : Exception -> M A) : M A :=
  fun w =>
    match body w with
    | (Return a, w') => (Return a, w')
    | (Raise e, w') => handler e w'
    end.

Declare Scope py_scope.
Delimit Scope py_scope with py.
Notation "x <- c1 ;; c2" := (bind c1 (fun x => c2))
  (at level 100, c1 at next level, right associativity) : py_scope.
Notation "c1 ;; c2" := (bind c1 (fun _ => c2))
  (at level 100, right associativity) : py_scope.
Local Open Scope py_scope.

Definition call (ev : Event) : M unit :=
  fun w => (Return tt, set_trace (trace w ++ [ev]) w).

(** ** The collaborators, as the script calls them *)

Module StructuredLogger.

(** [logging.<level>] for the names the module defines as levels. *)
Definition level_of_name (name : string) : option nat :=
  if String.eqb name "CRITICAL" then Some 50
  else if String.eqb name "FATAL" then Some 50
  else if String.eqb name "ERROR" then Some 40
  else if String.eqb name "WARNING" then Some 30
  else if String.eqb name "WARN" then Some 30
  else if String.eqb name "INFO" then Some 20
  else if String.eqb name "DEBUG" then Some 10
  else if String.eqb name "NOTSET" then Some 0
  else None.

(** [logging._checkLevel], which [Logger.setLevel] applies to its
    argument: an integer is taken as it is, a string must be the name of a
    level, anything else is refused. *)
Definition _checkLevel (a : Attribute) : Outcome nat :=
  match a with
  | AnInt n => Return n
  | AStr s =>
      match level_of_name s with
      | Some n => Return n
      | None => Raise (mkExn "ValueError" ("Unknown level: '" +:+ s +:+ "'"))
      end
  | AnObject repr =>
      Raise (mkExn "TypeError" ("Level not an integer or a valid string: " +:+ repr))
  end.

(** [getattr(logging, level)] followed by [setLevel]: the threshold of the
    logger, or the error of the one or of the other. *)
Definition threshold_of (w : World) (level : string) : Outcome nat :=
  match level_of_name level with
  | Some n => Return n
  | None =>
      match logging_attr w level with
      | Some a => _checkLevel a
      | None =>
          Raise (mkExn "AttributeError"
                       ("module 'logging' has no attribute '" +:+ level +:+ "'"))
      end
  end.

(** [StructuredLogger(name, level)].  The result is the threshold of the
    logger. *)
Definition new (name level : string) : M nat :=
  fun w => (threshold_of w level, w).

(** [_log]: one record handed to the logging backend. *)
Definition _log (lvl : Level) (message : string) (kwargs : list (string * Json))
  : M unit :=
  fun w => (Return tt, set_log (log w ++ [mkLog lvl message kwargs]) w).

Definition info := _log INFO.
Definition error := _log ERROR.
Definition warning := _log WARNING.

End StructuredLogger.

(** [os.getenv(name)] *)
Definition os_getenv (name : string) : M (option string) :=
  fun w => (Return (environ w !! name), w).

(** [with open(config_path, 'r') as f: yaml.safe_load(f)] *)
Definition open_yaml (config_path : string) : M Config :=
  call (EvOpen config_path) ;;
  fun w =>
    match yaml_files w !! config_path with
    | None =>
        (Raise (mkExn "FileNotFoundError"
                      ("[Errno 2] No such file or directory: '" +:+ config_path +:+ "'")), w)
    | Some None => (Raise (mkExn "YAMLError" "could not parse the document"), w)
    | Some (Some config) => (Return config, w)
    end.

(** [Path.exists()]: false for a missing entry, true for a file as for a
    directory; an error of [stat] other than "not found" is raised. *)
Definition Path_exists (p : Path) : M bool :=
  call (EvStat (str p)) ;;
  fun w =>
    match fs w !! str p with
    | None => (Return false, w)
    | Some NoAccess =>
        (Raise (mkExn "PermissionError"
                      ("[Errno 13] Permission denied: '" +:+ str p +:+ "'")), w)
    | Some _ => (Return true, w)
    end.

(** [list(p.glob(pattern))] for a one-component pattern: the matching
    entries of the directory, in the order the OS lists them; nothing when
    [p] is no directory.  A pattern with a path separator, for which
    [glob] descends into subdirectories, and a pattern with [**] inside a
    component, which some versions of [pathlib] refuse, are outside the
    model; names are matched character by character of Rocq's [string],
    which for a name outside ASCII is byte by byte. *)
Definition Path_glob (p : Path) (pattern : string) : M (list Path) :=
  call (EvGlob (str p) pattern) ;;
  fun w =>
    match fs w !! str p with
    | Some (Dir entries) =>
        (Return (map (joinpath p)
                     (List.filter (fun name => Fnmatch.fnmatch name pattern) entries)), w)
    | _ => (Return [], w)
    end.

(** [DoclingReader.load_data(file_path=...)] *)
Definition DoclingReader_load_data (file_path : string) : M (list Document) :=
  call (EvLoadData file_path) ;;
  fun w => (docling w file_path, w).

(** The prefixes of a path that end before a ['/'], shortest first. *)
Fixpoint prefixes (seen rest : list ascii) : list (list ascii) :=
  match rest with
  | [] => []
  | a :: rest' =>
      if Ascii.eqb a "/" then seen :: prefixes (seen ++ [a]) rest'
      else prefixes (seen ++ [a]) rest'
  end.

(** What follows the last ['/'] of a path. *)
Fixpoint basename_from (current rest : list ascii) : list ascii :=
  match rest with
  | [] => current
  | a :: rest' =>
      if Ascii.eqb a "/" then basename_from [] rest'
      else basename_from (current ++ [a]) rest'
  end.

Definition basename (path : string) : string :=
  string_of_list_ascii (basename_from [] (list_ascii_of_string path)).

(** The directories above a path that [os.makedirs] may have to create,
    outermost first: the root, the current directory, a parent directory
    [..] and what a doubled ['/'] repeats are there in any case. *)
Definition parents (path : string) : list string :=
  List.filter
    (fun p =>
       negb (String.eqb (basename p) "" || String.eqb (basename p) "."
             || String.eqb (basename p) ".."))
    (map string_of_list_ascii (prefixes [] (list_ascii_of_string path))).

(** A directory gains an entry: it is listed after the others, unless it
    is listed already. *)
Definition with_entry (name : string) (entries : list string) : list string :=
  if existsb (String.eqb name) entries then entries else entries ++ [name].

(** The name under which [child] is an entry of [parent], when it is
    spelled as one. *)
Definition entry_of (parent child : string) : list string :=
  if String.eqb child (parent +:+ "/" +:+ basename child) then [basename child] else [].

(** The directories above the leaf are walked from the outermost one:
    a missing one is created, one that is there gains the next one as an
    entry, and a path that names a file or that cannot be examined ends
    the walk. *)
Fixpoint make_parents (levels : list string) (leaf : string) (f : gmap string FsNode)
  : Outcome (gmap string FsNode) :=
  match levels with
  | [] => Return f
  | parent :: rest =>
      let child := hd leaf rest in
      match f !! parent with
      | None => make_parents rest leaf (<[parent := Dir (entry_of parent child)]> f)
      | Some (Dir entries) =>
          make_parents rest leaf
            (<[parent := Dir (fold_right with_entry entries (entry_of parent child))]> f)
      | Some File =>
          Raise (mkExn "NotADirectoryError"
                       ("[Errno 20] Not a directory: '" +:+ child +:+ "'"))
      | Some NoAccess =>
          Raise (mkExn "PermissionError"
                       ("[Errno 13] Permission denied: '" +:+ parent +:+ "'"))
      end
  end.

(** What [os.makedirs(path, exist_ok=True)] makes of the file system.  A
    directory that is there is left alone; a file in its place, or above
    it, is an error, and so is the empty path; otherwise the directory is
    created empty, after those above it that are missing, unless the OS
    refuses (a directory that cannot be written, a read-only file system,
    no space).  What a refused call had created by then is not kept. *)
Definition makedirs (w : World) (path : string) : Outcome (gmap string FsNode) :=
  if String.eqb path "" then
    Raise (mkExn "FileNotFoundError" "[Errno 2] No such file or directory: ''")
  else
    match fs w !! path with
    | Some (Dir _) => Return (fs w)
    | Some File =>
        Raise (mkExn "FileExistsError" ("[Errno 17] File exists: '" +:+ path +:+ "'"))
    | Some NoAccess =>
        Raise (mkExn "PermissionError"
                     ("[Errno 13] Permission denied: '" +:+ path +:+ "'"))
    | None =>
        match os_error w path with
        | Some e => Raise e
        | None =>
            match make_parents (parents path) path (fs w) with
            | Return f => Return (<[path := Dir []]> f)
            | Raise e => Raise e
            end
        end
    end.

(** [os.makedirs(path, exist_ok=True)] *)
Definition os_makedirs (path : string) : M unit :=
  call (EvMakedirs path) ;;
  fun w =>
    match makedirs w path with
    | Return f => (Return tt, set_fs f w)
    | Raise e => (Raise e, w)
    end.

Module chromadb.

Definition not_connected : Exception :=
  mkExn "ValueError" "Could not connect to a Chroma server. Are you sure it is running?".

(** Lets the backend refuse the operation. *)
Definition backend (op : ChromaOp) : M unit :=
  fun w =>
    match chroma_error w op with
    | Some e => (Raise e, w)
    | None => (Return tt, w)
    end.

(** The file of the database of a persistent client. *)
Definition db_file (path : string) : string := path +:+ "/chroma.sqlite3".

(** The persistence directory with the file of the database in it. *)
Definition with_db (path : string) (f : gmap string FsNode) : gmap string FsNode :=
  match f !! path with
  | Some (Dir entries) =>
      <[path := Dir (with_entry "chroma.sqlite3" entries)]>
        (match f !! db_file path with
         | None => <[db_file path := File]> f
         | Some _ => f
         end)
  | _ => f
  end.

(** [chromadb.PersistentClient(path=...)]: opens the database under the
    directory, creating the directory and an empty database when there is
    none; the database is the file [chroma.sqlite3] of the directory. *)
Definition new_PersistentClient (path : string) : M Client :=
  let c := PersistentClient path in
  call (EvClient c) ;;
  backend (OpConnect c) ;;
  fun w =>
    match makedirs w path with
    | Raise e => (Raise e, w)
    | Return f =>
        (Return c,
         set_chroma (match chroma w !! c with
                     | Some _ => chroma w
                     | None => <[c := ∅]> (chroma w)
                     end)
                    (set_fs (with_db path f) w))
    end.

(** [chromadb.HttpClient(host=..., port=...)]: fails when no server
    answers there. *)
Definition new_HttpClient (host : string) (port : Z) : M Client :=
  let c := HttpClient host port in
  call (EvClient c) ;;
  backend (OpConnect c) ;;
  fun w =>
    match chroma w !! c with
    | Some _ => (Return c, w)
    | None => (Raise not_connected, w)
    end.

(** [client.delete_collection(name=...)]: fails when the collection does
    not exist. *)
Definition delete_collection (c : Client) (name : string) : M unit :=
  call (EvDeleteCollection c name) ;;
  backend (OpDelete c name) ;;
  fun w =>
    match chroma w !! c with
    | None => (Raise not_connected, w)
    | Some cols =>
        match cols !! name with
        | None =>
            (Raise (mkExn "ValueError" ("Collection " +:+ name +:+ " does not exist.")), w)
        | Some _ => (Return tt, set_chroma (<[c := delete name cols]> (chroma w)) w)
        end
    end.

(** [client.get_or_create_collection(name=...)] *)
Definition get_or_create_collection (c : Client) (name : string) : M Collection :=
  call (EvGetOrCreateCollection c name) ;;
  backend (OpGetOrCreate c name) ;;
  fun w =>
    match chroma w !! c with
    | None => (Raise not_connected, w)
    | Some cols =>
        match cols !! name with
        | Some _ => (Return (mkCollection c name), w)
        | None =>
            (Return (mkCollection c name),
             set_chroma (<[c := <[name := []]> cols]> (chroma w)) w)
        end
    end.

(** What the indexer does with the collection: the entries are added after
    those it holds. *)
Definition add (col : Collection) (entries : list Entry) : M unit :=
  let c := collection_client col in
  let name := collection_name col in
  backend (OpAdd c name) ;;
  fun w =>
    match chroma w !! c with
    | None => (Raise not_connected, w)
    | Some cols =>
        match cols !! name with
        | None =>
            (Raise (mkExn "ValueError" ("Collection " +:+ name +:+ " does not exist.")), w)
        | Some old =>
            (Return tt, set_chroma (<[c := <[name := old ++ entries]> cols]> (chroma w)) w)
        end
    end.

End chromadb.

(** What a call of the indexer that fails leaves behind: the entries it
    had stored by then (it embeds and stores batch by batch) follow those
    of the collection, when the collection is there. *)
Definition keep_partial (col : Collection) (entries : list Entry) : M unit :=
  let c := collection_client col in
  let name := collection_name col in
  fun w =>
    match chroma w !! c with
    | None => (Return tt, w)
    | Some cols =>
        match cols !! name with
        | None => (Return tt, w)
        | Some old =>
            (Return tt, set_chroma (<[c := <[name := old ++ entries]> cols]> (chroma w)) w)
        end
    end.

(** [VectorStoreIndex.from_documents(documents, storage_context=...)]:
    chunking and embedding under the global [Settings], and storage of the
    result in the collection of the vector store.  A call that returns has
    stored all the entries of its index; a call that raises may have stored
    some. *)
Definition VectorStoreIndex_from_documents
  (documents : list Document) (vector_store : VectorStore) : M Index :=
  call (EvFromDocuments vector_store (length documents)) ;;
  try_except
    (entries <- (fun w => (indexing w (settings w) documents, w)) ;;
     chromadb.add (chroma_collection vector_store) entries ;;
     ret (mkIndex vector_store entries))
    (fun e =>
       partial <- (fun w => (Return (partial_index w (settings w) documents), w)) ;;
       keep_partial (chroma_collection vector_store) partial ;;
       raise e).

(** ** [IngestionPipeline] *)

Record IngestionPipeline : Type := mkPipeline {
  config : Config;
  logger : nat          (* the threshold of its [StructuredLogger] *)
}.

(** Python's [not api_key] for the result of [os.getenv]. *)
Definition falsy (v : option string) : bool :=
  match v with
  | None => true
  | Some s => String.eqb s ""
  end.

(** A constructor of a library returns, unless the library refuses. *)
Definition construct (c : Constructor) : M unit :=
  fun w =>
    match constructor_error w c with
    | Some e => (Raise e, w)
    | None => (Return tt, w)
    end.

(** [GeminiEmbedding(model_name=..., api_key=...)] *)
Definition new_GeminiEmbedding (model_name api_key : string) : M (string * string) :=
  construct (NewGeminiEmbedding model_name api_key) ;;
  ret (model_name, api_key).

(** [Gemini(model=..., api_key=..., temperature=...)] *)
Definition new_Gemini (model api_key : string) (temperature : Q)
  : M (string * string * Q) :=
  construct (NewGemini model api_key temperature) ;;
  ret (model, api_key, temperature).

(** Python's [str] of an integer. *)
Definition str_of_int (n : Z) : string := NilZero.string_of_int (Z.to_int n).

(** [SentenceSplitter(chunk_size=..., chunk_overlap=...)]: an overlap
    larger than the chunk is refused. *)
Definition new_SentenceSplitter (chunk_size chunk_overlap : Z) : M (Z * Z) :=
  if (chunk_size <? chunk_overlap)%Z then
    raise (mkExn "ValueError"
                 ("Got a larger chunk overlap (" +:+ str_of_int chunk_overlap
                  +:+ ") than chunk size (" +:+ str_of_int chunk_size
                  +:+ "), should be smaller."))
  else
    construct (NewSentenceSplitter chunk_size chunk_overlap) ;;
    ret (chunk_size, chunk_overlap).

(** [DoclingReader()] *)
Definition new_DoclingReader : M unit := construct NewDoclingReader.

(** The assignments to the attributes of [Settings]. *)
Definition Settings_set_embed_model (v : string * string) : M unit :=
  fun w =>
    (Return tt,
     set_settings (mkSettings (Some v) (llm (settings w)) (node_parser (settings w))) w).

Definition Settings_set_llm (v : string * string * Q) : M unit :=
  fun w =>
    (Return tt,
     set_settings
       (mkSettings (embed_model (settings w)) (Some v) (node_parser (settings w))) w).

Definition Settings_set_node_parser (v : Z * Z) : M unit :=
  fun w =>
    (Return tt,
     set_settings (mkSettings (embed_model (settings w)) (llm (settings w)) (Some v)) w).

(** The statements of [__init__] from "Configure LlamaIndex Settings" to
    "Initialize Docling reader". *)
Definition configure (config : Config) (key : string) : M unit :=
  (* Configure LlamaIndex Settings *)
  embed_model <- new_GeminiEmbedding (embedding_model config) key ;;
  Settings_set_embed_model embed_model ;;
  llm <- new_Gemini (llm_model config) key (llm_temperature config) ;;
  Settings_set_llm llm ;;
  (* Configure node parser (chunking strategy) *)
  node_parser <- new_SentenceSplitter (chunking_chunk_size config)
                                      (chunking_chunk_overlap config) ;;
  Settings_set_node_parser node_parser ;;
  (* Initialize Docling reader *)
  new_DoclingReader.

(** [IngestionPipeline.__init__] *)
Definition init (config_path : string) : M IngestionPipeline :=
  (* Load configuration *)
  config <- open_yaml config_path ;;
  (* Initialize logger *)
  logger <- StructuredLogger.new "ingestion" (default "INFO" (logging_level config)) ;;
  StructuredLogger.info "Ingestion pipeline initialized" [("config", JStr config_path)] ;;
  (* Get API key *)
  api_key <- os_getenv (embedding_api_key_env config) ;;
  if falsy api_key then
    raise (mkExn "ValueError"
                 ("Environment variable " +:+ embedding_api_key_env config +:+ " not set"))
  else
    let key := default "" api_key in
    configure config key ;;
    StructuredLogger.info "LlamaIndex and Docling configured successfully" [] ;;
    ret (mkPipeline config logger).

(** The loop [for ext in supported_formats:
    file_paths.extend(list(data_dir.glob(f"*.{ext}")))]. *)
Fixpoint glob_formats (data_dir : Path) (supported_formats : list string)
  (file_paths : list Path) : M (list Path) :=
  match supported_formats with
  | [] => ret file_paths
  | ext :: rest =>
      found <- Path_glob data_dir ("*." +:+ ext) ;;
      glob_formats data_dir rest (file_paths ++ found)
  end.

(** The loop [for file_path in file_paths:] with its [try]/[except]. *)
Fixpoint load_files (file_paths : list Path) (documents : list Document)
  : M (list Document) :=
  match file_paths with
  | [] => ret documents
  | file_path :: rest =>
      documents' <-
        try_except
          (docs <- DoclingReader_load_data (str file_path) ;;
           StructuredLogger.info "Loaded document"
             [("file", JStr (str file_path));
              ("num_docs", JInt (Z.of_nat (length docs)))] ;;
           ret (documents ++ docs))
          (fun e =>
             StructuredLogger.error "Failed to load document"
               [("file", JStr (str file_path)); ("error", JStr (exn_msg e))] ;;
             ret documents) ;;
      load_files rest documents'
  end.

(** [IngestionPipeline.load_documents] *)
Definition load_documents (self : IngestionPipeline) (data_dir : Path)
  : M (list Document) :=
  try_except
    (present <- Path_exists data_dir ;;
     if negb present then
       StructuredLogger.error "Data directory does not exist"
         [("path", JStr (str data_dir))] ;;
       ret []
     else
       (* Get all supported document files *)
       let supported_formats := ingestion_supported_formats (config self) in
       file_paths <- glob_formats data_dir supported_formats [] ;;
       match file_paths with
       | [] =>
           StructuredLogger.warning "No documents found"
             [("directory", JStr (str data_dir))] ;;
           ret []
       | _ :: _ =>
           StructuredLogger.info "Found documents"
             [("count", JInt (Z.of_nat (length file_paths)))] ;;
           (* Load documents with Docling *)
           documents <- load_files file_paths [] ;;
           StructuredLogger.info "Document loading complete"
             [("total_documents", JInt (Z.of_nat (length documents)));
              ("latency_seconds", JSeconds)] ;;
           ret documents
       end)
    (fun e =>
       StructuredLogger.error "Document loading failed" [("error", JStr (exn_msg e))] ;;
       raise e).

(** The first statement of [create_vector_store]: the [if]/[else] that
    initializes the ChromaDB client. *)
Definition open_client (self : IngestionPipeline) : M Client :=
  if String.eqb (vector_db_host (config self)) "localhost" then
    let persist_dir :=
      default "./chroma_db" (vector_db_persist_directory (config self)) in
    os_makedirs persist_dir ;;
    chromadb.new_PersistentClient persist_dir
  else
    chromadb.new_HttpClient (vector_db_host (config self))
                            (vector_db_port (config self)).

(** Its second statement: [if reset:] with the [try]/[except: pass]. *)
Definition reset_collection (chroma_client : Client) (collection_name : string)
  (reset : bool) : M unit :=
  if reset then
    try_except
      (chromadb.delete_collection chroma_client collection_name ;;
       StructuredLogger.info "Deleted existing collection" [])
      (fun _ => ret tt)
  else ret tt.

(** [IngestionPipeline.create_vector_store] *)
Definition create_vector_store (self : IngestionPipeline) (reset : bool)
  : M VectorStore :=
  try_except
    ((* Initialize ChromaDB client *)
     chroma_client <- open_client self ;;
     let collection_name := vector_db_collection_name (config self) in
     (* Reset collection if requested *)
     reset_collection chroma_client collection_name reset ;;
     (* Get or create collection *)
     chroma_collection <- chromadb.get_or_create_collection chroma_client collection_name ;;
     (* Create ChromaVectorStore *)
     let vector_store := ChromaVectorStore chroma_collection in
     StructuredLogger.info "Vector store ready" [("collection", JStr collection_name)] ;;
     ret vector_store)
    (fun e =>
       StructuredLogger.error "Failed to create vector store" [("error", JStr (exn_msg e))] ;;
       raise e).

(** [IngestionPipeline.run]; [None] is Python's [None] of the bare
    [return]. *)
Definition run (self : IngestionPipeline) (reset : bool) : M (option Index) :=
  try_except
    (StructuredLogger.info "Starting ingestion pipeline" [("reset_collection", JBool reset)] ;;
     (* Step 1: Load documents with Docling *)
     let data_dir := Path_of (ingestion_data_directory (config self)) in
     documents <- load_documents self data_dir ;;
     match documents with
     | [] =>
         StructuredLogger.error "No documents loaded" [] ;;
         ret None
     | _ :: _ =>
         (* Step 2: Create vector store *)
         vector_store <- create_vector_store self reset ;;
         (* Step 3: Create storage context; [StorageContext.from_defaults]
            only wraps the vector store *)
         (* Step 4: Build index (this handles chunking, embedding, and storage) *)
         StructuredLogger.info "Building vector index..." [] ;;
         index <- VectorStoreIndex_from_documents documents vector_store ;;
         StructuredLogger.info "Vector index built successfully"
           [("latency_seconds", JSeconds)] ;;
         StructuredLogger.info "Ingestion pipeline completed successfully"
           [("total_documents", JInt (Z.of_nat (length documents)));
            ("total_time_seconds", JSeconds)] ;;
         ret (Some index)
     end)
    (fun e =>
       StructuredLogger.error "Ingestion pipeline failed" [("error", JStr (exn_msg e))] ;;
       raise e).

(** ** Vocabulary of the properties *)

(** The world after more records were logged and more calls were made,
    everything else being as it was. *)
Definition observe (l : list LogRecord) (t : list Event) (w : World) : World :=
  set_trace (trace w ++ t) (set_log (log w ++ l) w).

Definition is_error (r : LogRecord) : bool :=
  match level r with
  | ERROR => true
  | _ => false
  end.

(** The error records of a log. *)
Definition errors (l : list LogRecord) : list LogRecord := List.filter is_error l.

(** The records of the files that were loaded. *)
Definition is_loaded (r : LogRecord) : bool :=
  match level r with
  | INFO => String.eqb (message r) "Loaded document"
  | _ => false
  end.

Definition loaded (l : list LogRecord) : list LogRecord := List.filter is_loaded l.

(** The files handed to the parser, in the order of the calls. *)
Definition parser_calls (t : list Event) : list string :=
  flat_map (fun ev => match ev with EvLoadData p => [p] | _ => [] end) t.

(** The clients opened, in the order of the calls. *)
Definition clients_opened (t : list Event) : list Client :=
  flat_map (fun ev => match ev with EvClient c => [c] | _ => [] end) t.

(** The collections whose deletion was asked for. *)
Definition deletions (t : list Event) : list (Client * string) :=
  flat_map (fun ev => match ev with EvDeleteCollection c n => [(c, n)] | _ => [] end) t.

(** Calls that the loading of documents makes. *)
Definition is_loader_event (ev : Event) : bool :=
  match ev with
  | EvStat _ | EvGlob _ _ | EvLoadData _ => true
  | _ => false
  end.

(** The name ends with a dot and the extension, character for character. *)
Definition has_extension (name ext : string) : Prop :=
  exists stem : string, name = stem +:+ "." +:+ ext.

(** An extension that is plain text for [glob]: no wildcard character and
    no path separator, so that ["*." + ext] is a one-component pattern
    whose only wildcard is the leading star. *)
Definition plain_extension (ext : string) : bool :=
  negb (Fnmatch.has_magic ext)
  && negb (existsb (Ascii.eqb "/") (list_ascii_of_string ext)).

(** What [file_paths] holds after the loop over the supported formats. *)
Definition matched_files (data_dir : Path) (supported_formats entries : list string)
  : list Path :=
  flat_map
    (fun ext =>
       map (joinpath data_dir)
           (List.filter (fun name => Fnmatch.fnmatch name ("*." +:+ ext)) entries))
    supported_formats.

(** What the loop over the formats finds in a world: nothing when the path
    is no directory. *)
Definition found (data_dir : Path) (supported_formats : list string) (w : World)
  : list Path :=
  match fs w !! str data_dir with
  | Some (Dir entries) => matched_files data_dir supported_formats entries
  | _ => []
  end.

(** The calls of the two loops. *)
Definition globs (data_dir : Path) (supported_formats : list string) : list Event :=
  map (fun ext => EvGlob (str data_dir) ("*." +:+ ext)) supported_formats.

Definition loads (file_paths : list Path) : list Event :=
  map (fun p => EvLoadData (str p)) file_paths.

(** The entries of a directory that match one of the formats, in the order
    the OS lists them. *)
Definition in_enumeration_order (data_dir : Path) (supported_formats entries : list string)
  : list Path :=
  map (joinpath data_dir)
      (List.filter
         (fun name =>
            existsb (fun ext => Fnmatch.fnmatch name ("*." +:+ ext)) supported_formats)
         entries).

(** The documents the reader makes of a file, none when it fails. *)
Definition docs_of (w : World) (p : Path) : list Document :=
  match docling w (str p) with
  | Return docs => docs
  | Raise _ => []
  end.

(** The record the loop logs for a file. *)
Definition file_record (w : World) (p : Path) : LogRecord :=
  match docling w (str p) with
  | Return docs =>
      mkLog INFO "Loaded document"
            [("file", JStr (str p)); ("num_docs", JInt (Z.of_nat (length docs)))]
  | Raise e =>
      mkLog ERROR "Failed to load document"
            [("file", JStr (str p)); ("error", JStr (exn_msg e))]
  end.

(** The entries of a collection of a backend; [None] when the backend or
    the collection is missing. *)
Definition stored (w : World) (c : Client) (name : string) : option (list Entry) :=
  match chroma w !! c with
  | Some cols => cols !! name
  | None => None
  end.

(** Nothing stored is lost from [w] to [w']: every collection still holds
    its entries, in order, possibly followed by more. *)
Definition keeps_entries (w w' : World) : Prop :=
  forall c name entries,
    stored w c name = Some entries ->
    exists added, stored w' c name = Some (entries ++ added).

(** The client [create_vector_store] opens for a configuration. *)
Definition client_of (cfg : Config) : Client :=
  if String.eqb (vector_db_host cfg) "localhost"
  then PersistentClient (default "./chroma_db" (vector_db_persist_directory cfg))
  else HttpClient (vector_db_host cfg) (vector_db_port cfg).

(** ** Sample inputs *)

Module Sample.

Definition cfg : Config :=
  mkConfig "models/embedding-001" "GOOGLE_API_KEY" "models/gemini-pro" (1 # 10)
           512 50 "data" ["pdf"; "txt"] "localhost" 8000 "n26_docs" None (Some "INFO").

Definition with_formats (formats : list string) (c : Config) : Config :=
  mkConfig (embedding_model c) (embedding_api_key_env c) (llm_model c) (llm_temperature c)
           (chunking_chunk_size c) (chunking_chunk_overlap c) (ingestion_data_directory c)
           formats (vector_db_host c) (vector_db_port c) (vector_db_collection_name c)
           (vector_db_persist_directory c) (logging_level c).

Definition with_host (host : string) (c : Config) : Config :=
  mkConfig (embedding_model c) (embedding_api_key_env c) (llm_model c) (llm_temperature c)
           (chunking_chunk_size c) (chunking_chunk_overlap c) (ingestion_data_directory c)
           (ingestion_supported_formats c) host (vector_db_port c)
           (vector_db_collection_name c) (vector_db_persist_directory c) (logging_level c).

Definition pipeline : IngestionPipeline := mkPipeline cfg 20.

(** The supported formats are the single entry ["*"]. *)
Definition star_pipeline : IngestionPipeline := mkPipeline (with_formats ["*"] cfg) 20.

(** The format ["pdf"] is listed twice. *)
Definition twice_pipeline : IngestionPipeline :=
  mkPipeline (with_formats ["pdf"; "txt"; "pdf"] cfg) 20.

Definition doc (p : string) : Document := mkDoc ("text of " +:+ p) [("source", p)].

(** The reader fails on [data/b.pdf] and makes one document of any other
    file. *)
Definition reader (p : string) : Outcome (list Document) :=
  if String.eqb p "data/b.pdf"
  then Raise (mkExn "ConversionError" "not a PDF document")
  else Return [doc p].

(** Some attributes of [logging] that are no level constants. *)
Definition logging_module (name : string) : option Attribute :=
  if String.eqb name "debug" then Some (AnObject "<function debug at 0x7f3a5c1d2e50>")
  else if String.eqb name "BASIC_FORMAT" then Some (AStr "%(levelname)s:%(name)s:%(message)s")
  else if String.eqb name "raiseExceptions" then Some (AnInt 1)
  else None.

(** One entry for each document. *)
Definition indexer (_ : Settings) (docs : list Document) : Outcome (list Entry) :=
  Return (map (fun d => mkEntry (doc_text d) (doc_metadata d)) docs).

Definition world (files : gmap string FsNode) (env : gmap string string) : World :=
  mkWorld env {["config.yaml" := Some cfg]} logging_module files (fun _ => None) reader
          (fun _ => None) ∅ (fun _ => None) indexer (fun _ _ => [])
          (mkSettings None None None) [] [].

Definition key : gmap string string := {["GOOGLE_API_KEY" := "secret"]}.

(** A data directory of three files, the second of which does not parse. *)
Definition w_three : World :=
  world {["data" := Dir ["a.txt"; "b.pdf"; "c.pdf"]]} key.

(** A data directory listed as a text file and then a PDF file. *)
Definition w_two : World := world {["data" := Dir ["a.txt"; "c.pdf"]]} key.

(** A data directory with a backup file in it. *)
Definition w_bak : World := world {["data" := Dir ["notes.bak"]]} key.

(** [data] is a regular file. *)
Definition w_file : World := world {["data" := File]} key.

(** No [data] at all. *)
Definition w_absent : World := world ∅ key.

(** The environment does not hold the API key. *)
Definition w_nokey : World := world {["data" := Dir ["a.txt"]]} ∅.

End Sample.

(** ** The entry point *)

(** The options of the command line as given: [None] when [--config] is
    absent, [true] when [--reset] is present. *)
Record Args : Type := mkArgs {
  arg_config : option string;
  arg_reset : bool
}.

(** How the process ends: its exit status and the records [main] printed
    to standard output (the printed dictionary has the shape of a log
    record: level, message and the [error] field). *)
Record Exit : Type := mkExit {
  exit_status : Z;
  printed : list LogRecord
}.

(** [main]: the parser's default for [--config] is ['../config.yaml'];
    any exception of the construction or of the run is printed and turned
    into [sys.exit(1)]. *)
Definition main (args : Args) : World -> Exit * World :=
  fun w =>
    match (pipeline <- init (default "../config.yaml" (arg_config args)) ;;
           run pipeline (arg_reset args)) w with
    | (Return _, w') => (mkExit 0 [], w')
    | (Raise e, w') =>
        (mkExit 1 [mkLog ERROR "Pipeline execution failed"
                         [("error", JStr (exn_msg e))]], w')
    end.

(** ** More vocabulary *)

(** The reader fails on the file. *)
Definition fails (w : World) (p : Path) : bool :=
  match docling w (str p) with
  | Raise _ => true
  | Return _ => false
  end.

(** Calls to the vector store and to the indexer. *)
Definition is_store_event (ev : Event) : bool :=
  match ev with
  | EvMakedirs _ | EvClient _ | EvDeleteCollection _ _
  | EvGetOrCreateCollection _ _ | EvFromDocuments _ _ => true
  | _ => false
  end.

(** The directories whose creation was asked for, in the order of the
    calls. *)
Definition directories_made (t : list Event) : list string :=
  flat_map (fun ev => match ev with EvMakedirs p => [p] | _ => [] end) t.

(** The record with which [run] opens its log. *)
Definition starting (reset : bool) : LogRecord :=
  mkLog INFO "Starting ingestion pipeline" [("reset_collection", JBool reset)].

(** The record a handler of the pipeline logs for an exception. *)
Definition failure (message : string) (e : Exception) : LogRecord :=
  mkLog ERROR message [("error", JStr (exn_msg e))].

(** The settings [__init__] installs for a configuration and an API key. *)
Definition settings_of (cfg : Config) (key : string) : Settings :=
  mkSettings (Some (embedding_model cfg, key))
             (Some (llm_model cfg, key, llm_temperature cfg))
             (Some (chunking_chunk_size cfg, chunking_chunk_overlap cfg)).

(** ** More sample inputs *)

Module Sample2.

Definition old_entry : Entry := mkEntry "an earlier passage" [("source", "old.pdf")].

(** The local store already holds the collection, with one entry, and
    another collection beside it. *)
Definition stocked : gmap Client (gmap string (list Entry)) :=
  {[PersistentClient "./chroma_db" :=
      {["n26_docs" := [old_entry]; "other" := [old_entry]]}]}.

Definition w_stocked : World := set_chroma stocked Sample.w_two.

(** The embedding provider goes down during the indexing, after the
    entry of the first document was stored. *)
Definition failing_indexer (_ : Settings) (_ : list Document) : Outcome (list Entry) :=
  Raise (mkExn "ConnectionError" "embedding API unreachable").

Definition first_entry (_ : Settings) (docs : list Document) : list Entry :=
  map (fun d => mkEntry (doc_text d) (doc_metadata d)) (take 1 docs).

Definition w_no_embedding : World :=
  mkWorld (environ w_stocked) (yaml_files w_stocked) (logging_attr w_stocked)
          (fs w_stocked) (os_error w_stocked) (docling w_stocked)
          (constructor_error w_stocked) (chroma w_stocked) (chroma_error w_stocked)
          failing_indexer first_entry
          (settings w_stocked) (log w_stocked) (trace w_stocked).

(** The configured overlap of the chunks is larger than the chunks. *)
Definition cfg_overlap : Config :=
  mkConfig "models/embedding-001" "GOOGLE_API_KEY" "models/gemini-pro" (1 # 10)
           512 600 "data" ["pdf"; "txt"] "localhost" 8000 "n26_docs" None (Some "INFO").

Definition w_overlap : World :=
  mkWorld (environ Sample.w_two) {["config.yaml" := Some cfg_overlap]}
          (logging_attr Sample.w_two) (fs Sample.w_two) (os_error Sample.w_two)
          (docling Sample.w_two) (constructor_error Sample.w_two) (chroma Sample.w_two)
          (chroma_error Sample.w_two) (indexing Sample.w_two)
          (partial_index Sample.w_two) (settings Sample.w_two) (log Sample.w_two)
          (trace Sample.w_two).

(** The configured logging level is the name of a function of [logging],
    and the API key is not in the environment. *)
Definition cfg_debug : Config :=
  mkConfig "models/embedding-001" "GOOGLE_API_KEY" "models/gemini-pro" (1 # 10)
           512 50 "data" ["pdf"; "txt"] "localhost" 8000 "n26_docs" None (Some "debug").

Definition w_debug : World :=
  mkWorld (environ Sample.w_nokey) {["config.yaml" := Some cfg_debug]}
          (logging_attr Sample.w_nokey) (fs Sample.w_nokey) (os_error Sample.w_nokey)
          (docling Sample.w_nokey) (constructor_error Sample.w_nokey)
          (chroma Sample.w_nokey) (chroma_error Sample.w_nokey) (indexing Sample.w_nokey)
          (partial_index Sample.w_nokey) (settings Sample.w_nokey) (log Sample.w_nokey)
          (trace Sample.w_nokey).

(** The persistence directory is the empty path. *)
Definition cfg_nowhere : Config :=
  mkConfig "models/embedding-001" "GOOGLE_API_KEY" "models/gemini-pro" (1 # 10)
           512 50 "data" ["pdf"; "txt"] "localhost" 8000 "n26_docs" (Some "")
           (Some "INFO").

(** Every file of the data directory fails to parse. *)
Definition w_all_bad : World :=
  Sample.world {["data" := Dir ["b.pdf"]]} Sample.key.

(** The data directory cannot be examined. *)
Definition w_denied : World := Sample.world {["data" := NoAccess]} Sample.key.

(** The persistence directory is a regular file. *)
Definition w_blocked : World :=
  Sample.world {["data" := Dir ["a.txt"]; "./chroma_db" := File]} Sample.key.

End Sample2.

(** * Properties *)

(** ** Running statements *)

Section Frame.

Context (l : list LogRecord) (t : list Event) (w : World).

Lemma environ_observe : environ (observe l t w) = environ w.
Proof. reflexivity. Qed.

Lemma yaml_files_observe : yaml_files (observe l t w) = yaml_files w.
Proof. reflexivity. Qed.

Lemma fs_observe : fs (observe l t w) = fs w.
Proof. reflexivity. Qed.

Lemma docling_observe : docling (observe l t w) = docling w.
Proof. reflexivity. Qed.

Lemma chroma_observe : chroma (observe l t w) = chroma w.
Proof. reflexivity. Qed.

Lemma chroma_error_observe : chroma_error (observe l t w) = chroma_error w.
Proof. reflexivity. Qed.

Lemma indexing_observe : indexing (observe l t w) = indexing w.
Proof. reflexivity. Qed.

Lemma settings_observe : settings (observe l t w) = settings w.
Proof. reflexivity. Qed.

Lemma logging_attr_observe : logging_attr (observe l t w) = logging_attr w.
Proof. reflexivity. Qed.

Lemma os_error_observe : os_error (observe l t w) = os_error w.
Proof. reflexivity. Qed.

Lemma constructor_error_observe :
  constructor_error (observe l t w) = constructor_error w.
Proof. reflexivity. Qed.

Lemma partial_index_observe : partial_index (observe l t w) = partial_index w.
Proof. reflexivity. Qed.

Lemma log_observe : log (observe l t w) = log w ++ l.
Proof. reflexivity. Qed.

Lemma trace_observe : trace (observe l t w) = trace w ++ t.
Proof. reflexivity. Qed.

Lemma observe_observe l' t' :
  observe l' t' (observe l t w) = observe (l ++ l') (t ++ t') w.
Proof. unfold observe, set_trace, set_log; simpl. by rewrite !app_assoc. Qed.

Lemma set_fs_observe f : set_fs f (observe l t w) = observe l t (set_fs f w).
Proof. reflexivity. Qed.

Lemma set_chroma_observe c : set_chroma c (observe l t w) = observe l t (set_chroma c w).
Proof. reflexivity. Qed.

Lemma set_settings_observe s : set_settings s (observe l t w) = observe l t (set_settings s w).
Proof. reflexivity. Qed.

End Frame.

Lemma observe_nil w : observe [] [] w = w.
Proof. destruct w; unfold observe, set_trace, set_log; simpl. by rewrite !app_nil_r. Qed.

Lemma stored_observe l t w c name : stored (observe l t w) c name = stored w c name.
Proof. reflexivity. Qed.

Lemma docs_of_observe l t w p : docs_of (observe l t w) p = docs_of w p.
Proof. reflexivity. Qed.

Create Rewrite HintDb world.

#[local] Hint Rewrite environ_observe yaml_files_observe fs_observe docling_observe
  chroma_observe chroma_error_observe indexing_observe settings_observe
  logging_attr_observe os_error_observe constructor_error_observe partial_index_observe
  log_observe trace_observe observe_observe set_fs_observe set_chroma_observe
  set_settings_observe stored_observe observe_nil : world.

Section Statements.

Context {A B : Type}.

Lemma run_bind (c : M A) (k : A -> M B) w :
  bind c k w = match c w with
               | (Return a, w') => k a w'
               | (Raise e, w') => (Raise e, w')
               end.
Proof. reflexivity. Qed.

Lemma run_try (body : M A) (handler : Exception -> M A) w :
  try_except body handler w = match body w with
                              | (Return a, w') => (Return a, w')
                              | (Raise e, w') => handler e w'
                              end.
Proof. reflexivity. Qed.

Lemma run_ret (a : A) w : ret a w = (Return a, w).
Proof. reflexivity. Qed.

Lemma run_raise e w : raise (A := A) e w = (Raise e, w).
Proof. reflexivity. Qed.

End Statements.

Lemma run_call ev w : call ev w = (Return tt, observe [] [ev] w).
Proof.
  unfold call, observe, set_trace, set_log; simpl. by rewrite app_nil_r.
Qed.

Lemma run_log lvl msg kw w :
  StructuredLogger._log lvl msg kw w = (Return tt, observe [mkLog lvl msg kw] [] w).
Proof.
  unfold StructuredLogger._log, observe, set_trace, set_log; simpl.
  by rewrite app_nil_r.
Qed.

Lemma run_info msg kw w :
  StructuredLogger.info msg kw w = (Return tt, observe [mkLog INFO msg kw] [] w).
Proof. apply run_log. Qed.

Lemma run_error msg kw w :
  StructuredLogger.error msg kw w = (Return tt, observe [mkLog ERROR msg kw] [] w).
Proof. apply run_log. Qed.

Lemma run_warning msg kw w :
  StructuredLogger.warning msg kw w = (Return tt, observe [mkLog WARNING msg kw] [] w).
Proof. apply run_log. Qed.

Arguments observe : simpl never.
Arguments call : simpl never.
Arguments StructuredLogger._log : simpl never.
Arguments StructuredLogger.info : simpl never.
Arguments StructuredLogger.error : simpl never.
Arguments StructuredLogger.warning : simpl never.

(** One statement at a time: the head of a sequence is run, and the world
    it leaves is brought to the form [observe l t w]. *)
Ltac step :=
  repeat first [rewrite run_bind | rewrite run_try];
  rewrite ?run_call, ?run_info, ?run_error, ?run_warning, ?run_ret, ?run_raise;
  cbv beta iota;
  autorewrite with world.

(** ** The two loops of [load_documents] *)

Lemma run_Path_glob d pattern w :
  Path_glob d pattern w =
  (Return (match fs w !! str d with
           | Some (Dir entries) =>
               map (joinpath d)
                   (List.filter (fun name => Fnmatch.fnmatch name pattern) entries)
           | _ => []
           end), observe [] [EvGlob (str d) pattern] w).
Proof.
  unfold Path_glob. step.
  destruct (fs w !! str d) as [[| |]|]; reflexivity.
Qed.

Lemma run_glob_formats d formats : forall acc w,
  glob_formats d formats acc w =
  (Return (acc ++ found d formats w),
   observe [] (map (fun ext => EvGlob (str d) ("*." +:+ ext)) formats) w).
Proof.
  induction formats as [|ext rest IH]; intros acc w; simpl.
  - step. unfold found, matched_files.
    destruct (fs w !! str d) as [[| |]|]; simpl; by rewrite app_nil_r.
  - step. rewrite run_Path_glob, IH. autorewrite with world.
    unfold found; simpl.
    destruct (fs w !! str d) as [[entries| |]|]; simpl; rewrite ?app_nil_r; try done.
    by rewrite app_assoc.
Qed.

Lemma run_load_files files : forall documents w,
  load_files files documents w =
  (Return (documents ++ flat_map (docs_of w) files),
   observe (map (file_record w) files) (map (fun p => EvLoadData (str p)) files) w).
Proof.
  induction files as [|p rest IH]; intros documents w; simpl.
  - step. by rewrite app_nil_r.
  - unfold DoclingReader_load_data. do 3 step.
    unfold docs_of at 1, file_record at 1.
    destruct (docling w (str p)) as [docs|e] eqn:Hd.
    + do 2 step. rewrite IH. autorewrite with world. simpl.
      by rewrite app_assoc.
    + do 2 step. rewrite IH. autorewrite with world. reflexivity.
Qed.

Lemma run_Path_exists d w :
  Path_exists d w =
  (match fs w !! str d with
   | None => Return false
   | Some NoAccess =>
       Raise (mkExn "PermissionError"
                    ("[Errno 13] Permission denied: '" +:+ str d +:+ "'"))
   | Some _ => Return true
   end, observe [] [EvStat (str d)] w).
Proof.
  unfold Path_exists. step.
  destruct (fs w !! str d) as [[| |]|]; reflexivity.
Qed.

Arguments Path_exists : simpl never.
Arguments glob_formats : simpl never.
Arguments load_files : simpl never.

(** ** [load_documents], case by case *)

Lemma load_documents_absent self d w :
  fs w !! str d = None ->
  load_documents self d w =
  (Return [],
   observe [mkLog ERROR "Data directory does not exist" [("path", JStr (str d))]]
           [EvStat (str d)] w).
Proof.
  intros H. unfold load_documents. step. rewrite run_Path_exists, H.
  cbn. do 2 step. reflexivity.
Qed.

Lemma load_documents_no_access self d w :
  fs w !! str d = Some NoAccess ->
  let e := mkExn "PermissionError"
                 ("[Errno 13] Permission denied: '" +:+ str d +:+ "'") in
  load_documents self d w =
  (Raise e,
   observe [mkLog ERROR "Document loading failed" [("error", JStr (exn_msg e))]]
           [EvStat (str d)] w).
Proof.
  intros H e. unfold load_documents. step. rewrite run_Path_exists, H.
  cbn. do 2 step. cbn. reflexivity.
Qed.

Lemma load_documents_none_found self d w :
  fs w !! str d <> None -> fs w !! str d <> Some NoAccess ->
  found d (ingestion_supported_formats (config self)) w = [] ->
  load_documents self d w =
  (Return [],
   observe [mkLog WARNING "No documents found" [("directory", JStr (str d))]]
           (EvStat (str d) :: globs d (ingestion_supported_formats (config self))) w).
Proof.
  intros H1 H2 H. unfold load_documents. step. rewrite run_Path_exists.
  destruct (fs w !! str d) as [[| |]|] eqn:E; try congruence; cbn;
    step; rewrite run_glob_formats; autorewrite with world;
    unfold found in *; rewrite ?fs_observe, E in *; cbn; rewrite ?H;
    do 2 step; cbn; rewrite ?app_nil_r; reflexivity.
Qed.

Lemma load_documents_some_found self d w :
  fs w !! str d <> None -> fs w !! str d <> Some NoAccess ->
  found d (ingestion_supported_formats (config self)) w <> [] ->
  let files := found d (ingestion_supported_formats (config self)) w in
  load_documents self d w =
  (Return (flat_map (docs_of w) files),
   observe
     (mkLog INFO "Found documents" [("count", JInt (Z.of_nat (length files)))]
      :: map (file_record w) files
      ++ [mkLog INFO "Document loading complete"
            [("total_documents",
              JInt (Z.of_nat (length (flat_map (docs_of w) files))));
             ("latency_seconds", JSeconds)]])
     (EvStat (str d) :: globs d (ingestion_supported_formats (config self))
      ++ loads files) w).
Proof.
  intros H1 H2 H files. unfold load_documents. step. rewrite run_Path_exists.
  assert (Hex : exists b, (match fs w !! str d with
                           | None => Return false
                           | Some NoAccess =>
                               Raise (mkExn "PermissionError"
                                 ("[Errno 13] Permission denied: '" +:+ str d +:+ "'"))
                           | Some _ => Return true
                           end) = Return true /\ b = true).
  { destruct (fs w !! str d) as [[| |]|]; try congruence; by exists true. }
  destruct Hex as (_ & -> & _). cbn.
  step. rewrite run_glob_formats. autorewrite with world. cbn.
  assert (Hf : found d (ingestion_supported_formats (config self))
                 (observe [] [EvStat (str d)] w) = files) by reflexivity.
  rewrite Hf. destruct files as [|p rest] eqn:E; [done|].
  rewrite <- E. step. step. rewrite run_load_files. autorewrite with world.
  cbn. step. step. cbn. rewrite ?app_nil_r.
  unfold docs_of, file_record. autorewrite with world. reflexivity.
Qed.

(** ** Matching a name against ["*." + ext] *)

Module FnmatchFacts.
Import Fnmatch.

Lemma chars_app (a b : string) :
  list_ascii_of_string (a +:+ b) = list_ascii_of_string a ++ list_ascii_of_string b.
Proof. induction a as [|c a IH]; simpl; [reflexivity | f_equal; exact IH]. Qed.

Lemma chars_inj (a b : string) :
  list_ascii_of_string a = list_ascii_of_string b -> a = b.
Proof.
  intros H. rewrite <- (string_of_list_ascii_of_string a),
    <- (string_of_list_ascii_of_string b). by rewrite H.
Qed.

(** Without wildcard characters, a pattern is its own characters. *)
Lemma translate_fuel_plain (l : list ascii) : forall n,
  length l <= n -> existsb is_magic l = false ->
  translate_fuel n l = map TLit l.
Proof.
  induction l as [|c l IH]; intros [|n] Hn Hm; cbn in *; try reflexivity; try lia.
  apply orb_false_iff in Hm as [Hc Hl]. unfold is_magic in Hc.
  apply orb_false_iff in Hc as [Hc H3]. apply orb_false_iff in Hc as [H1 H2].
  rewrite H1, H2, H3. f_equal. apply IH; [lia | done].
Qed.

Lemma fullmatch_lits (l : list ascii) : forall s,
  fullmatch (map TLit l) s = true <-> s = l.
Proof.
  induction l as [|c l IH]; intros [|c' s]; cbn; try (split; congruence).
  rewrite andb_true_iff, IH, Ascii.eqb_eq. split.
  - intros [-> ->]; reflexivity.
  - intros [= -> ->]; done.
Qed.

Lemma fullmatch_star (p : list Tok) : forall s,
  fullmatch (TStar :: p) s = true <->
  exists s1 s2, s = s1 ++ s2 /\ fullmatch p s2 = true.
Proof.
  induction s as [|c s IH].
  - cbn. rewrite orb_false_r. split.
    + intros H. by exists [], [].
    + intros (s1 & s2 & E & H). symmetry in E.
      apply app_eq_nil in E as [-> ->]. done.
  - change (fullmatch (TStar :: p) (c :: s))
      with (fullmatch p (c :: s) || fullmatch (TStar :: p) s).
    rewrite orb_true_iff, IH. split.
    + intros [H | (s1 & s2 & -> & H)].
      * by exists [], (c :: s).
      * by exists (c :: s1), s2.
    + intros (s1 & s2 & E & H). destruct s1 as [|c1 s1]; cbn in E.
      * left. by rewrite E.
      * right. injection E as -> ->. by exists s1, s2.
Qed.

(** For an extension without wildcard characters, the pattern matches the
    names that end with the dot and the extension. *)
Lemma fnmatch_plain (name ext : string) :
  has_magic ext = false ->
  fnmatch name ("*." +:+ ext) = true <-> has_extension name ext.
Proof.
  intros Hm. unfold fnmatch, translate, has_extension.
  change (list_ascii_of_string ("*." +:+ ext))
    with ("*"%char :: "."%char :: list_ascii_of_string ext).
  change (translate_fuel (length ("*"%char :: "."%char :: list_ascii_of_string ext))
            ("*"%char :: "."%char :: list_ascii_of_string ext))
    with (TStar :: TLit "." :: translate_fuel (length (list_ascii_of_string ext))
                                              (list_ascii_of_string ext)).
  rewrite translate_fuel_plain by (done || lia).
  change (TStar :: TLit "." :: map TLit (list_ascii_of_string ext))
    with (TStar :: map TLit ("."%char :: list_ascii_of_string ext)).
  rewrite fullmatch_star. split.
  - intros (s1 & s2 & E & H). apply fullmatch_lits in H as ->.
    exists (string_of_list_ascii s1). apply chars_inj.
    rewrite E, chars_app, list_ascii_of_string_of_list_ascii. reflexivity.
  - intros [stem ->]. exists (list_ascii_of_string stem), ("."%char :: list_ascii_of_string ext).
    split; [by rewrite chars_app | by apply fullmatch_lits].
Qed.

End FnmatchFacts.

(** ** The embedding on small inputs *)

Example fnmatch_extension : Fnmatch.fnmatch "report.pdf" "*.pdf" = true.
Proof. reflexivity. Qed.

Example fnmatch_case_sensitive : Fnmatch.fnmatch "report.PDF" "*.pdf" = false.
Proof. reflexivity. Qed.

Example fnmatch_bracket : Fnmatch.fnmatch "report.PDF" "*.[pP][dD][fF]" = true.
Proof. reflexivity. Qed.

Example fnmatch_negated_bracket : Fnmatch.fnmatch "a.x1" "*.x[!0-9]" = false.
Proof. reflexivity. Qed.

Example fnmatch_unclosed_bracket : Fnmatch.fnmatch "a.[x" "*.[x" = true.
Proof. reflexivity. Qed.

Example fnmatch_dot_file : Fnmatch.fnmatch ".txt" "*.txt" = true.
Proof. reflexivity. Qed.

Example fnmatch_question_mark : Fnmatch.fnmatch "a.md" "*.??" = true.
Proof. reflexivity. Qed.

Example path_normal_form :
  map (fun s => str (Path_of s)) ["./data//raw/"; ""; "//srv"; "///srv"; "/"]
  = ["data/raw"; "."; "//srv"; "/srv"; "/"].
Proof. reflexivity. Qed.

Example path_child : str (joinpath (Path_of ".") "a.txt") = "a.txt".
Proof. reflexivity. Qed.

Example run_on_sample :
  fst (run Sample.pipeline true Sample.w_three)
  = Return (Some (mkIndex
                    (ChromaVectorStore
                       (mkCollection (PersistentClient "./chroma_db") "n26_docs"))
                    [mkEntry "text of data/c.pdf" [("source", "data/c.pdf")];
                     mkEntry "text of data/a.txt" [("source", "data/a.txt")]])).
Proof. reflexivity. Qed.

Example remote_host_unreachable :
  fst (create_vector_store
         (mkPipeline (Sample.with_host "chroma.internal" Sample.cfg) 20) false
         Sample.w_two)
  = Raise chromadb.not_connected.
Proof. reflexivity. Qed.

(** ** Reading logs and traces *)

Lemma errors_app l1 l2 : errors (l1 ++ l2) = errors l1 ++ errors l2.
Proof. apply List.filter_app. Qed.

Lemma loaded_app l1 l2 : loaded (l1 ++ l2) = loaded l1 ++ loaded l2.
Proof. apply List.filter_app. Qed.

Lemma errors_cons r l :
  errors (r :: l) = if is_error r then r :: errors l else errors l.
Proof. reflexivity. Qed.

Lemma loaded_cons r l :
  loaded (r :: l) = if is_loaded r then r :: loaded l else loaded l.
Proof. reflexivity. Qed.

Lemma parser_calls_app t1 t2 :
  parser_calls (t1 ++ t2) = parser_calls t1 ++ parser_calls t2.
Proof. apply flat_map_app. Qed.

Lemma parser_calls_globs d formats : parser_calls (globs d formats) = [].
Proof. induction formats; [reflexivity | exact IHformats]. Qed.

Lemma parser_calls_loads files : parser_calls (loads files) = map str files.
Proof.
  induction files as [|p files IH]; [reflexivity|].
  change (parser_calls (loads (p :: files))) with (str p :: parser_calls (loads files)).
  by rewrite IH.
Qed.

Lemma loader_events_globs d formats : forallb is_loader_event (globs d formats) = true.
Proof. induction formats; [reflexivity | exact IHformats]. Qed.

Lemma loader_events_loads files : forallb is_loader_event (loads files) = true.
Proof. induction files; [reflexivity | exact IHfiles]. Qed.

Section Records.

Context (w : World).

Lemma file_record_good p docs :
  docling w (str p) = Return docs ->
  is_error (file_record w p) = false /\ is_loaded (file_record w p) = true.
Proof. intros H. unfold file_record. rewrite H. split; reflexivity. Qed.

Lemma file_record_bad p e :
  docling w (str p) = Raise e ->
  file_record w p =
  mkLog ERROR "Failed to load document"
        [("file", JStr (str p)); ("error", JStr (exn_msg e))].
Proof. intros H. unfold file_record. by rewrite H. Qed.

Lemma records_all_good files :
  (forall p, In p files -> exists docs, docling w (str p) = Return docs) ->
  errors (map (file_record w) files) = []
  /\ length (loaded (map (file_record w) files)) = length files.
Proof.
  induction files as [|p files IH]; intros H; [done|].
  destruct (H p) as [docs Hd]; [by left|].
  destruct (file_record_good p docs Hd) as [He Hl].
  destruct IH as [IH1 IH2]; [intros q Hq; apply H; by right|].
  cbn [map]. rewrite errors_cons, loaded_cons, He, Hl. cbn [length].
  by rewrite IH1, IH2.
Qed.

End Records.

(** ** Claims about [load_documents] *)

(** [load_documents] only ever adds records to the log and calls of its own
    to the trace. *)
Lemma load_documents_frame self d w :
  exists l t,
    snd (load_documents self d w) = observe l t w
    /\ forallb is_loader_event t = true.
Proof.
  destruct (fs w !! str d) as [node|] eqn:E.
  - assert (Hd : node = NoAccess \/ node <> NoAccess)
      by (destruct node; (by left) || (by right)).
    destruct Hd as [->|Hn].
    + rewrite (load_documents_no_access self d w E). by eexists _, _.
    + assert (H1 : fs w !! str d <> None) by congruence.
      assert (H2 : fs w !! str d <> Some NoAccess) by congruence.
      destruct (found d (ingestion_supported_formats (config self)) w) eqn:F.
      * rewrite (load_documents_none_found self d w H1 H2 F).
        eexists _, _. split; [reflexivity|]. cbn. apply loader_events_globs.
      * rewrite (load_documents_some_found self d w H1 H2) by congruence.
        eexists _, _. split; [reflexivity|]. cbn.
        rewrite forallb_app, loader_events_globs, loader_events_loads. done.
  - rewrite (load_documents_absent self d w E). by eexists _, _.
Qed.

(** What a directory with matching files gives: the calls to the parser
    and the documents follow [matched_files]. *)
Lemma load_documents_dir self d w entries :
  fs w !! str d = Some (Dir entries) ->
  let files := matched_files d (ingestion_supported_formats (config self)) entries in
  files <> [] ->
  exists l,
    load_documents self d w =
    (Return (flat_map (docs_of w) files),
     observe l (EvStat (str d) :: globs d (ingestion_supported_formats (config self))
                ++ loads files) w)
    /\ errors l = errors (map (file_record w) files)
    /\ loaded l = loaded (map (file_record w) files).
Proof.
  intros E files Hf.
  assert (F : found d (ingestion_supported_formats (config self)) w = files)
    by (unfold found; by rewrite E).
  eexists. split.
  - rewrite load_documents_some_found; rewrite ?F; try congruence. reflexivity.
  - rewrite errors_cons, loaded_cons, errors_app, loaded_app. cbn.
    by rewrite !app_nil_r.
Qed.

(** C1. Per-file error isolation: when exactly one of the N matched files
    of a directory fails to parse, [load_documents] returns normally with
    the documents of the N-1 other files, in order; the log gains exactly
    one error record, which names the path of the failing file and the
    message of the failure; one "Loaded document" record is logged for each
    of the N-1 other files; and every matched file, those after the failing
    one included, was handed to the parser. *)
Theorem load_documents_isolates_failure
  (self : IngestionPipeline) (d : Path) (w : World)
  (entries : list string) (before after : list Path) (bad : Path) (e : Exception) :
  fs w !! str d = Some (Dir entries) ->
  matched_files d (ingestion_supported_formats (config self)) entries
    = before ++ bad :: after ->
  docling w (str bad) = Raise e ->
  (forall p, In p (before ++ after) -> exists docs, docling w (str p) = Return docs) ->
  exists w',
    load_documents self d w = (Return (flat_map (docs_of w) (before ++ after)), w')
    /\ errors (log w') =
       errors (log w)
       ++ [mkLog ERROR "Failed to load document"
                 [("file", JStr (str bad)); ("error", JStr (exn_msg e))]]
    /\ length (loaded (log w')) =
       length (loaded (log w)) + (length (before ++ bad :: after) - 1)
    /\ parser_calls (trace w') =
       parser_calls (trace w) ++ map str (before ++ bad :: after).
Proof.
  intros E Hm Hbad Hgood.
  destruct (load_documents_dir self d w entries E) as (l & Hrun & Herr & Hld).
  { rewrite Hm. by destruct before. }
  rewrite Hm in Hrun, Herr, Hld.
  assert (Hb : forall p, In p before -> exists docs, docling w (str p) = Return docs)
    by (intros p Hp; apply Hgood, in_or_app; by left).
  assert (Ha : forall p, In p after -> exists docs, docling w (str p) = Return docs)
    by (intros p Hp; apply Hgood, in_or_app; by right).
  destruct (records_all_good w before Hb) as [Eb Lb].
  destruct (records_all_good w after Ha) as [Ea La].
  eexists. split; [|split; [|split]].
  - rewrite Hrun. do 2 f_equal. rewrite !flat_map_app. cbn.
    unfold docs_of at 2. by rewrite Hbad.
  - rewrite log_observe, errors_app, Herr, map_app, errors_app. cbn [map].
    rewrite (file_record_bad w bad e Hbad).
    rewrite errors_cons. cbn [is_error level]. rewrite Eb, Ea. reflexivity.
  - rewrite log_observe, loaded_app, Hld, map_app, loaded_app. cbn [map].
    rewrite (file_record_bad w bad e Hbad).
    rewrite loaded_cons. cbn [is_loaded level message].
    rewrite !length_app, Lb, La. cbn [length]. lia.
  - rewrite trace_observe, parser_calls_app. cbn.
    by rewrite parser_calls_app, parser_calls_globs, parser_calls_loads.
Qed.

(** The directory of three files of which [data/b.pdf] does not parse. *)
Lemma load_documents_isolates_failure_witness :
  exists w',
    load_documents Sample.pipeline (Path_of "data") Sample.w_three
    = (Return [Sample.doc "data/c.pdf"; Sample.doc "data/a.txt"], w')
    /\ errors (log w') =
       [mkLog ERROR "Failed to load document"
              [("file", JStr "data/b.pdf"); ("error", JStr "not a PDF document")]].
Proof.
  destruct (load_documents_isolates_failure
              Sample.pipeline (Path_of "data") Sample.w_three
              ["a.txt"; "b.pdf"; "c.pdf"] []
              [joinpath (Path_of "data") "c.pdf"; joinpath (Path_of "data") "a.txt"]
              (joinpath (Path_of "data") "b.pdf")
              (mkExn "ConversionError" "not a PDF document"))
    as (w' & Hrun & Herr & _).
  - reflexivity.
  - reflexivity.
  - reflexivity.
  - intros p [<-|[<-|[]]]; eexists; reflexivity.
  - exists w'. split; [exact Hrun | exact Herr].
Defined.

(** The calls to the parser are those for the files found, in that order. *)
Lemma load_documents_calls self d w :
  parser_calls (trace (snd (load_documents self d w))) =
  parser_calls (trace w)
  ++ map str (found d (ingestion_supported_formats (config self)) w).
Proof.
  destruct (fs w !! str d) as [node|] eqn:E.
  - assert (Hd : node = NoAccess \/ node <> NoAccess)
      by (destruct node; (by left) || (by right)).
    destruct Hd as [->|Hn].
    + rewrite (load_documents_no_access self d w E). unfold found. rewrite E.
      cbn [snd]. by rewrite trace_observe, parser_calls_app.
    + assert (H1 : fs w !! str d <> None) by congruence.
      assert (H2 : fs w !! str d <> Some NoAccess) by congruence.
      destruct (found d (ingestion_supported_formats (config self)) w) eqn:F.
      * rewrite (load_documents_none_found self d w H1 H2 F). cbn [snd].
        rewrite trace_observe, parser_calls_app.
        change (parser_calls (EvStat ?p :: ?t)) with (parser_calls t).
        by rewrite parser_calls_globs.
      * rewrite (load_documents_some_found self d w H1 H2) by congruence.
        cbn [snd]. rewrite trace_observe, parser_calls_app, F.
        change (parser_calls (EvStat ?p :: ?t)) with (parser_calls t).
        by rewrite parser_calls_app, parser_calls_globs, parser_calls_loads.
  - rewrite (load_documents_absent self d w E). unfold found. rewrite E.
    cbn [snd]. by rewrite trace_observe, parser_calls_app.
Qed.

(** What is returned for a directory: the documents of the files found. *)
Lemma load_documents_returns self d w entries :
  fs w !! str d = Some (Dir entries) ->
  fst (load_documents self d w) =
  Return (flat_map (docs_of w)
            (matched_files d (ingestion_supported_formats (config self)) entries)).
Proof.
  intros E.
  assert (H1 : fs w !! str d <> None) by congruence.
  assert (H2 : fs w !! str d <> Some NoAccess) by congruence.
  assert (F : found d (ingestion_supported_formats (config self)) w
              = matched_files d (ingestion_supported_formats (config self)) entries)
    by (unfold found; by rewrite E).
  destruct (matched_files d (ingestion_supported_formats (config self)) entries) eqn:Hm.
  - by rewrite (load_documents_none_found self d w H1 H2 F).
  - rewrite (load_documents_some_found self d w H1 H2) by congruence.
    by rewrite F.
Qed.

Lemma joinpath_inj d name name' : joinpath d name = joinpath d name' -> name = name'.
Proof.
  unfold joinpath. intros [= H]. by apply app_inj_tail in H as [_ ->].
Qed.

(** The files found are entries of the directory that match a format. *)
Lemma found_matches d formats w p :
  In p (found d formats w) ->
  exists entries name ext,
    fs w !! str d = Some (Dir entries) /\ In name entries /\ In ext formats
    /\ p = joinpath d name /\ Fnmatch.fnmatch name ("*." +:+ ext) = true.
Proof.
  unfold found. destruct (fs w !! str d) as [[entries| |]|]; try done.
  unfold matched_files. intros H.
  apply in_flat_map in H as (ext & Hext & H).
  apply in_map_iff in H as (name & <- & H).
  apply List.filter_In in H as [Hin Hmatch].
  by exists entries, name, ext.
Qed.

(** C5, as stated, fails: with the supported formats [["*"]] the file
    [notes.bak] of the data directory is handed to the parser, although its
    name ends with none of the supported formats. *)
Lemma load_documents_wildcard_format :
  ingestion_supported_formats (config Sample.star_pipeline) = ["*"]
  /\ fs Sample.w_bak !! "data" = Some (Dir ["notes.bak"])
  /\ parser_calls
       (trace (snd (load_documents Sample.star_pipeline (Path_of "data") Sample.w_bak)))
     = ["data/notes.bak"]
  /\ ~ has_extension "notes.bak" "*".
Proof.
  split; [reflexivity|]. split; [reflexivity|]. split; [reflexivity|].
  intros [stem H].
  repeat (destruct stem as [|? stem]; cbn in H; [discriminate|];
          injection H as _ H).
  destruct stem; discriminate.
Qed.

(** C5, amended.  When no supported format contains a wildcard character
    ([*], [?], [[]) or a path separator, [load_documents] hands to the
    parser only entries of the data directory whose name ends with a dot
    followed by one of the supported formats, character for character
    (hence case-sensitively); an entry whose name ends with none of them is
    never handed to the parser. *)
Theorem load_documents_parses_only_matching
  (self : IngestionPipeline) (d : Path) (w : World) :
  forallb plain_extension (ingestion_supported_formats (config self)) = true ->
  exists files : list Path,
    parser_calls (trace (snd (load_documents self d w)))
    = parser_calls (trace w) ++ map str files
    /\ (forall p, In p files ->
        exists entries name ext,
          fs w !! str d = Some (Dir entries) /\ In name entries
          /\ In ext (ingestion_supported_formats (config self))
          /\ p = joinpath d name /\ has_extension name ext)
    /\ (forall name,
          (forall ext, In ext (ingestion_supported_formats (config self)) ->
                       ~ has_extension name ext) ->
          ~ In (joinpath d name) files).
Proof.
  intros Hplain.
  assert (Hin : forall p,
             In p (found d (ingestion_supported_formats (config self)) w) ->
             exists entries name ext,
               fs w !! str d = Some (Dir entries) /\ In name entries
               /\ In ext (ingestion_supported_formats (config self))
               /\ p = joinpath d name /\ has_extension name ext).
  { intros p Hp.
    destruct (found_matches _ _ _ _ Hp) as (entries & name & ext & E & Hn & He & -> & Hm).
    exists entries, name, ext. repeat split; try done.
    apply FnmatchFacts.fnmatch_plain; [|done].
    rewrite forallb_forall in Hplain. specialize (Hplain ext He).
    unfold plain_extension in Hplain.
    apply andb_true_iff in Hplain as [Hmagic _].
    by apply negb_true_iff in Hmagic. }
  exists (found d (ingestion_supported_formats (config self)) w).
  split; [apply load_documents_calls|]. split; [exact Hin|].
  intros name Hnone Hp.
  destruct (Hin _ Hp) as (entries & name' & ext & _ & _ & He & Hj & Hext).
  apply joinpath_inj in Hj as <-. exact (Hnone ext He Hext).
Qed.

(** The sample pipeline, whose formats are [pdf] and [txt]. *)
Lemma load_documents_parses_only_matching_witness :
  exists files : list Path,
    parser_calls
      (trace (snd (load_documents Sample.pipeline (Path_of "data") Sample.w_three)))
    = map str files
    /\ ~ In (joinpath (Path_of "data") "b.doc") files.
Proof.
  destruct (load_documents_parses_only_matching
              Sample.pipeline (Path_of "data") Sample.w_three)
    as (files & Hcalls & _ & Hnever).
  - reflexivity.
  - exists files. split; [exact Hcalls|].
    apply Hnever. intros ext [<-|[<-|[]]] [stem H];
      repeat (destruct stem as [|? stem]; cbn in H; [discriminate|];
              injection H as _ H);
      destruct stem; discriminate.
Defined.

(** C6, as stated, fails: [data] names a regular file, so it does not name
    an existing directory; [load_documents] returns the empty list, but the
    log gains no error record: the only record is a warning. *)
Lemma load_documents_regular_file_warns :
  fs Sample.w_file !! str (Path_of "data") = Some File
  /\ fst (load_documents Sample.pipeline (Path_of "data") Sample.w_file) = Return []
  /\ errors (log (snd (load_documents Sample.pipeline (Path_of "data") Sample.w_file)))
     = []
  /\ log (snd (load_documents Sample.pipeline (Path_of "data") Sample.w_file))
     = [mkLog WARNING "No documents found" [("directory", JStr "data")]].
Proof. repeat split; reflexivity. Qed.

(** C6, amended.  For a path that names nothing at all, [load_documents]
    logs one error record and returns the empty list without raising.  For
    an empty directory, and for a path that names a regular file, it
    returns the empty list without raising as well, and the record it logs
    is a warning, not an error. *)
Theorem load_documents_nothing_to_load
  (self : IngestionPipeline) (d : Path) (w : World) :
  fs w !! str d = None \/ fs w !! str d = Some (Dir []) \/ fs w !! str d = Some File ->
  exists w',
    load_documents self d w = (Return [], w')
    /\ log w' =
       log w
       ++ [match fs w !! str d with
           | None => mkLog ERROR "Data directory does not exist" [("path", JStr (str d))]
           | Some _ => mkLog WARNING "No documents found" [("directory", JStr (str d))]
           end].
Proof.
  intros [E | H].
  - rewrite (load_documents_absent self d w E), E. by eexists.
  - assert (H1 : fs w !! str d <> None) by (destruct H as [-> | ->]; congruence).
    assert (H2 : fs w !! str d <> Some NoAccess)
      by (destruct H as [-> | ->]; congruence).
    assert (F : found d (ingestion_supported_formats (config self)) w = []).
    { unfold found, matched_files. destruct H as [-> | ->]; [|done].
      induction (ingestion_supported_formats (config self)); [done|]. cbn. done. }
    rewrite (load_documents_none_found self d w H1 H2 F).
    eexists. split; [reflexivity|]. rewrite log_observe.
    by destruct H as [-> | ->].
Qed.

(** No [data] at all: one error record. *)
Lemma load_documents_nothing_to_load_witness :
  exists w',
    load_documents Sample.pipeline (Path_of "data") Sample.w_absent = (Return [], w')
    /\ log w' = [mkLog ERROR "Data directory does not exist" [("path", JStr "data")]].
Proof.
  apply (load_documents_nothing_to_load Sample.pipeline (Path_of "data") Sample.w_absent).
  left. reflexivity.
Defined.

(** C9, as stated, fails: the directory lists [a.txt] before [c.pdf], and
    both match a supported format; the parser is called for [c.pdf] first,
    because [pdf] comes before [txt] in the supported formats. *)
Lemma load_documents_order_by_format :
  fs Sample.w_two !! str (Path_of "data") = Some (Dir ["a.txt"; "c.pdf"])
  /\ ingestion_supported_formats (config Sample.pipeline) = ["pdf"; "txt"]
  /\ map str (in_enumeration_order (Path_of "data") ["pdf"; "txt"] ["a.txt"; "c.pdf"])
     = ["data/a.txt"; "data/c.pdf"]
  /\ parser_calls
       (trace (snd (load_documents Sample.pipeline (Path_of "data") Sample.w_two)))
     = ["data/c.pdf"; "data/a.txt"]
  /\ fst (load_documents Sample.pipeline (Path_of "data") Sample.w_two)
     = Return [Sample.doc "data/c.pdf"; Sample.doc "data/a.txt"].
Proof. repeat split; reflexivity. Qed.

(** With one format, the files found are in the order of the directory. *)
Lemma matched_files_single d ext entries :
  matched_files d [ext] entries = in_enumeration_order d [ext] entries.
Proof.
  unfold matched_files, in_enumeration_order. cbn [flat_map existsb].
  rewrite app_nil_r. f_equal. apply List.filter_ext. intros name.
  by rewrite orb_false_r.
Qed.

(** C9, amended.  The matched files are handed to the parser format by
    format, in the order of the supported formats, and within one format in
    the order in which the directory lists its entries; the documents
    returned follow the same order.  When there is a single supported
    format, this is the order in which the directory lists the matching
    entries. *)
Theorem load_documents_order
  (self : IngestionPipeline) (d : Path) (w : World) (entries : list string) :
  fs w !! str d = Some (Dir entries) ->
  let file_paths :=
    flat_map
      (fun ext =>
         map (joinpath d)
             (List.filter (fun name => Fnmatch.fnmatch name ("*." +:+ ext)) entries))
      (ingestion_supported_formats (config self)) in
  parser_calls (trace (snd (load_documents self d w)))
  = parser_calls (trace w) ++ map str file_paths
  /\ fst (load_documents self d w) = Return (flat_map (docs_of w) file_paths)
  /\ (forall ext, ingestion_supported_formats (config self) = [ext] ->
                  file_paths = in_enumeration_order d [ext] entries).
Proof.
  intros E file_paths. split; [|split].
  - rewrite load_documents_calls. unfold found. by rewrite E.
  - by apply load_documents_returns.
  - intros ext Hs. subst file_paths. rewrite Hs.
    apply (matched_files_single d ext entries).
Qed.

(** The directory that lists [a.txt] before [c.pdf]. *)
Lemma load_documents_order_witness :
  parser_calls
    (trace (snd (load_documents Sample.pipeline (Path_of "data") Sample.w_two)))
  = ["data/c.pdf"; "data/a.txt"].
Proof.
  exact (proj1 (load_documents_order Sample.pipeline (Path_of "data") Sample.w_two
                  ["a.txt"; "c.pdf"] eq_refl)).
Defined.

Section Multiplicity.

Context (d : Path) (entries : list string) (name ext : string).
Hypothesis Hentry : In name entries.
Hypothesis Hmatch : Fnmatch.fnmatch name ("*." +:+ ext) = true.

Lemma matched_files_cons e formats :
  matched_files d (e :: formats) entries =
  map (joinpath d)
      (List.filter (fun name => Fnmatch.fnmatch name ("*." +:+ e)) entries)
  ++ matched_files d formats entries.
Proof. reflexivity. Qed.

Lemma matched_files_group :
  In (joinpath d name)
     (map (joinpath d)
          (List.filter (fun name => Fnmatch.fnmatch name ("*." +:+ ext)) entries)).
Proof. apply in_map, List.filter_In. by split. Qed.

(** The file is among the matched files once for each occurrence of the
    format, at least. *)
Lemma matched_files_count (formats : list string) :
  count_occ string_dec formats ext
  <= count_occ string_dec (map str (matched_files d formats entries))
               (str (joinpath d name)).
Proof.
  induction formats as [|e formats IH]; [cbn; lia|].
  rewrite matched_files_cons, map_app, count_occ_app. cbn [count_occ].
  destruct (string_dec e ext) as [->|_]; [|lia].
  pose proof (in_map str _ _ matched_files_group) as H.
  apply (count_occ_In string_dec) in H. lia.
Qed.

Lemma matched_docs_count (w : World) (doc : Document) (formats : list string) :
  In doc (docs_of w (joinpath d name)) ->
  count_occ string_dec formats ext
  <= count_occ Document_eq_dec
               (flat_map (docs_of w) (matched_files d formats entries)) doc.
Proof.
  intros Hdoc. induction formats as [|e formats IH]; [cbn; lia|].
  rewrite matched_files_cons, flat_map_app, count_occ_app. cbn [count_occ].
  destruct (string_dec e ext) as [->|_]; [|lia].
  assert (H : In doc
                (flat_map (docs_of w)
                   (map (joinpath d)
                      (List.filter (fun name => Fnmatch.fnmatch name ("*." +:+ ext))
                         entries)))).
  { apply in_flat_map. exists (joinpath d name). split; [|done].
    apply matched_files_group. }
  apply (count_occ_In Document_eq_dec) in H. lia.
Qed.

(** In a directory that lists a name once, the file is among the matched
    files exactly once for each listed format that its name matches. *)
Lemma matched_files_exact (formats : list string) :
  NoDup entries ->
  count_occ Path_eq_dec (matched_files d formats entries) (joinpath d name)
  = length (List.filter (fun e => Fnmatch.fnmatch name ("*." +:+ e)) formats).
Proof.
  intros Hnodup%NoDup_ListNoDup.
  induction formats as [|e formats IH]; [reflexivity|].
  rewrite matched_files_cons, count_occ_app, IH.
  rewrite <- (count_occ_map (joinpath d) string_dec Path_eq_dec (joinpath_inj d)).
  cbn [List.filter].
  assert (Hone : count_occ string_dec entries name = 1).
  { by apply (proj1 (NoDup_count_occ' string_dec entries) Hnodup). }
  destruct (Fnmatch.fnmatch name ("*." +:+ e)) eqn:He; cbn [length].
  - f_equal.
    assert (Hle : count_occ string_dec
                    (List.filter (fun n => Fnmatch.fnmatch n ("*." +:+ e)) entries) name
                  <= 1).
    { apply (proj1 (NoDup_count_occ string_dec _)). by apply List.NoDup_filter. }
    assert (Hin : In name
                    (List.filter (fun n => Fnmatch.fnmatch n ("*." +:+ e)) entries))
      by (apply List.filter_In; by split).
    apply (count_occ_In string_dec) in Hin. lia.
  - replace (count_occ string_dec
               (List.filter (fun n => Fnmatch.fnmatch n ("*." +:+ e)) entries) name)
      with 0; [done|].
    symmetry. apply (proj1 (count_occ_not_In string_dec _ _)).
    intros Hin%List.filter_In. destruct Hin as [_ Hin]. congruence.
Qed.

End Multiplicity.

(** C10.  A file of the data directory that matches a supported format is
    handed to the parser at least once for each occurrence of that format
    in the list of supported formats, so several times when the format is
    listed several times; and each document the parser makes of the file
    is in the returned list at least as many times.  Precisely, the file
    is in [file_paths] once for each listed format that its name matches,
    occurrences counted. *)
Theorem load_documents_repeats_duplicates
  (self : IngestionPipeline) (d : Path) (w : World)
  (entries : list string) (name ext : string) :
  fs w !! str d = Some (Dir entries) ->
  NoDup entries ->
  In name entries ->
  Fnmatch.fnmatch name ("*." +:+ ext) = true ->
  let formats := ingestion_supported_formats (config self) in
  let times := count_occ string_dec formats ext in
  count_occ string_dec (parser_calls (trace w)) (str (joinpath d name)) + times
  <= count_occ string_dec (parser_calls (trace (snd (load_documents self d w))))
               (str (joinpath d name))
  /\ (exists documents,
        fst (load_documents self d w) = Return documents
        /\ forall docs doc,
             docling w (str (joinpath d name)) = Return docs -> In doc docs ->
             times <= count_occ Document_eq_dec documents doc)
  /\ exists file_paths,
       parser_calls (trace (snd (load_documents self d w)))
       = parser_calls (trace w) ++ map str file_paths
       /\ count_occ Path_eq_dec file_paths (joinpath d name)
          = length (List.filter (fun e => Fnmatch.fnmatch name ("*." +:+ e)) formats).
Proof.
  intros E Hnodup Hentry Hmatch formats times. subst times formats.
  set (formats := ingestion_supported_formats (config self)). split; [|split].
  - rewrite load_documents_calls, count_occ_app. unfold found. rewrite E.
    pose proof (matched_files_count d entries name ext Hentry Hmatch formats).
    fold formats. lia.
  - eexists. split; [by apply load_documents_returns|].
    intros docs doc Hd Hdoc.
    apply (matched_docs_count d entries name ext Hentry Hmatch).
    unfold docs_of. by rewrite Hd.
  - exists (matched_files d formats entries). split.
    + rewrite load_documents_calls. unfold found. by rewrite E.
    + by apply matched_files_exact.
Qed.

(** [pdf] listed twice: [c.pdf] is parsed twice and its document is
    returned twice. *)
Lemma load_documents_repeats_duplicates_witness :
  2 <= count_occ string_dec
         (parser_calls
            (trace (snd (load_documents Sample.twice_pipeline (Path_of "data")
                           Sample.w_two))))
         "data/c.pdf".
Proof.
  refine (proj1 (load_documents_repeats_duplicates
                   Sample.twice_pipeline (Path_of "data") Sample.w_two
                   ["a.txt"; "c.pdf"] "c.pdf" "pdf"
                   eq_refl _ (or_intror (or_introl eq_refl)) eq_refl)).
  apply (bool_decide_unpack (NoDup ["a.txt"; "c.pdf"])). vm_compute. exact I.
Defined.

(** ** Claims about [run] without documents and about [__init__] *)

Arguments load_documents : simpl never.
Arguments create_vector_store : simpl never.

(** C2.  Whatever the configuration and the reset flag, when
    [load_documents] returns the empty list, [run] logs the error record
    "No documents loaded" and returns [None] without raising.  Every call
    it made was a call of the loading of documents (stat, glob, parser): no
    client was opened, no collection was touched, no index was built, and
    the stores and the file system are as before. *)
Theorem run_without_documents
  (self : IngestionPipeline) (reset : bool) (w w1 : World) :
  load_documents self (Path_of (ingestion_data_directory (config self)))
    (observe [mkLog INFO "Starting ingestion pipeline" [("reset_collection", JBool reset)]]
             [] w)
  = (Return [], w1) ->
  run self reset w = (Return None, observe [mkLog ERROR "No documents loaded" []] [] w1)
  /\ (exists t, trace w1 = trace w ++ t /\ forallb is_loader_event t = true)
  /\ chroma w1 = chroma w
  /\ fs w1 = fs w.
Proof.
  intros H. split.
  - unfold run. do 2 step. rewrite H. do 2 step. reflexivity.
  - destruct (load_documents_frame self
                (Path_of (ingestion_data_directory (config self)))
                (observe [mkLog INFO "Starting ingestion pipeline"
                                [("reset_collection", JBool reset)]] [] w))
      as (l & t & Hw & Ht).
    rewrite H in Hw. cbn [snd] in Hw. subst w1. autorewrite with world.
    split; [|done]. exists t. by rewrite app_nil_l.
Qed.

(** The data directory is missing. *)
Lemma run_without_documents_witness :
  run Sample.pipeline true Sample.w_absent
  = (Return None,
     observe
       [mkLog INFO "Starting ingestion pipeline" [("reset_collection", JBool true)];
        mkLog ERROR "Data directory does not exist" [("path", JStr "data")];
        mkLog ERROR "No documents loaded" []]
       [EvStat "data"] Sample.w_absent).
Proof.
  refine (eq_trans
            (proj1 (run_without_documents Sample.pipeline true Sample.w_absent
                     (observe
                        [mkLog INFO "Starting ingestion pipeline"
                               [("reset_collection", JBool true)];
                         mkLog ERROR "Data directory does not exist"
                               [("path", JStr "data")]]
                        [EvStat "data"] Sample.w_absent) _)) _).
  - reflexivity.
  - reflexivity.
Defined.

(** ** [__init__], case by case *)

Lemma set_settings_same w : set_settings (settings w) w = w.
Proof. by destruct w. Qed.

Lemma run_construct c w :
  construct c w = match constructor_error w c with
                  | Some e => (Raise e, w)
                  | None => (Return tt, w)
                  end.
Proof. reflexivity. Qed.

Arguments construct : simpl never.

(** The block that configures the libraries changes the global settings
    and nothing else.  When it returns, the three settings are those of
    the configuration; when it raises, either no setting was assigned, or
    the embedding model was. *)
Lemma configure_spec cfg key w :
  exists r s,
    configure cfg key w = (r, set_settings s w)
    /\ (r = Return tt -> s = settings_of cfg key)
    /\ (s = settings w \/ embed_model s = Some (embedding_model cfg, key)).
Proof.
  unfold configure, new_GeminiEmbedding, new_Gemini, new_SentenceSplitter,
    new_DoclingReader, Settings_set_embed_model, Settings_set_llm,
    Settings_set_node_parser.
  do 2 step. rewrite run_construct.
  destruct (constructor_error w (NewGeminiEmbedding _ _)) as [e|].
  { exists (Raise e), (settings w). rewrite set_settings_same.
    split; [done|]. split; [done | by left]. }
  do 4 step. rewrite run_construct. cbn [constructor_error set_settings].
  destruct (constructor_error w (NewGemini _ _ _)) as [e|].
  { eexists (Raise e), _. split; [reflexivity|]. split; [done | by right]. }
  do 3 step.
  destruct (chunking_chunk_size cfg <? chunking_chunk_overlap cfg)%Z.
  { step. eexists (Raise _), _. split; [reflexivity|]. split; [done | by right]. }
  do 2 step. rewrite run_construct. cbn [constructor_error set_settings].
  destruct (constructor_error w (NewSentenceSplitter _ _)) as [e|].
  { eexists (Raise e), _. split; [reflexivity|]. split; [done | by right]. }
  do 3 step. rewrite run_construct. cbn [constructor_error set_settings].
  destruct (constructor_error w NewDoclingReader) as [e|].
  - eexists (Raise e), _. split; [reflexivity|]. split; [done | by right].
  - eexists (Return tt), _. split; [reflexivity|]. split; [done | by right].
Qed.

(** The block takes no notice of the log and of the trace. *)
Lemma configure_observe cfg key l t w :
  configure cfg key (observe l t w)
  = (fst (configure cfg key w), observe l t (snd (configure cfg key w))).
Proof.
  destruct w as [env yaml attr files oserr reader cerr stores berr ix part st lg tr].
  unfold configure, new_GeminiEmbedding, new_Gemini, new_SentenceSplitter,
    new_DoclingReader, Settings_set_embed_model, Settings_set_llm,
    Settings_set_node_parser, construct, bind, ret, raise, observe, set_log,
    set_trace, set_settings.
  simpl.
  destruct (cerr (NewGeminiEmbedding (embedding_model cfg) key)); [reflexivity|].
  simpl.
  destruct (cerr (NewGemini (llm_model cfg) key (llm_temperature cfg)));
    [reflexivity|].
  simpl.
  destruct (chunking_chunk_size cfg <? chunking_chunk_overlap cfg)%Z; [reflexivity|].
  simpl.
  destruct (cerr (NewSentenceSplitter (chunking_chunk_size cfg)
                    (chunking_chunk_overlap cfg))); [reflexivity|].
  simpl.
  destruct (cerr NewDoclingReader); reflexivity.
Qed.

Arguments configure : simpl never.

Lemma init_cases config_path w :
  init config_path w =
  match yaml_files w !! config_path with
  | None =>
      (Raise (mkExn "FileNotFoundError"
                    ("[Errno 2] No such file or directory: '" +:+ config_path +:+ "'")),
       observe [] [EvOpen config_path] w)
  | Some None =>
      (Raise (mkExn "YAMLError" "could not parse the document"),
       observe [] [EvOpen config_path] w)
  | Some (Some cfg) =>
      match StructuredLogger.threshold_of w (default "INFO" (logging_level cfg)) with
      | Raise e => (Raise e, observe [] [EvOpen config_path] w)
      | Return threshold =>
          if falsy (environ w !! embedding_api_key_env cfg) then
            (Raise (mkExn "ValueError"
                          ("Environment variable " +:+ embedding_api_key_env cfg
                           +:+ " not set")),
             observe [mkLog INFO "Ingestion pipeline initialized"
                            [("config", JStr config_path)]]
                     [EvOpen config_path] w)
          else
            match configure cfg (default "" (environ w !! embedding_api_key_env cfg))
                    w with
            | (Raise e, w1) =>
                (Raise e,
                 observe [mkLog INFO "Ingestion pipeline initialized"
                                [("config", JStr config_path)]]
                         [EvOpen config_path] w1)
            | (Return _, w1) =>
                (Return (mkPipeline cfg threshold),
                 observe [mkLog INFO "Ingestion pipeline initialized"
                                [("config", JStr config_path)];
                          mkLog INFO "LlamaIndex and Docling configured successfully" []]
                         [EvOpen config_path] w1)
            end
      end
  end.
Proof.
  unfold init, open_yaml. do 2 step.
  destruct (yaml_files w !! config_path) as [[cfg|]|]; try reflexivity.
  unfold StructuredLogger.new. step.
  change (StructuredLogger.threshold_of (observe [] [EvOpen config_path] w))
    with (StructuredLogger.threshold_of w).
  destruct (StructuredLogger.threshold_of w (default "INFO" (logging_level cfg)));
    [|reflexivity].
  do 2 step. unfold os_getenv at 1. cbv beta iota. autorewrite with world.
  destruct (falsy (environ w !! embedding_api_key_env cfg)).
  - step. reflexivity.
  - step. rewrite configure_observe.
    destruct (configure cfg _ w) as [[[]|e] w1]; cbn [fst snd].
    + do 2 step. reflexivity.
    + reflexivity.
Qed.

Arguments init : simpl never.

(** ** The claim about [__init__] *)

(** C7.  When the configuration file loads and the environment variable it
    names under [embedding.api_key_env] is unset or empty, the construction
    raises.  What it raises is the [ValueError] that names the variable,
    unless the configured logging level is refused, in which case the
    error of the logger's construction is raised before the variable is
    looked up.  In either case the construction has made one call that
    left the process, the opening of the configuration file from which the
    name of the variable is read, and has logged no error; no directory
    was listed, no document was read, no store was opened, and the file
    system, the stores and the global settings are as before. *)
Theorem init_missing_key (config_path : string) (w : World) (cfg : Config) :
  yaml_files w !! config_path = Some (Some cfg) ->
  falsy (environ w !! embedding_api_key_env cfg) = true ->
  exists e l,
    init config_path w = (Raise e, observe l [EvOpen config_path] w)
    /\ errors l = []
    /\ match StructuredLogger.threshold_of w (default "INFO" (logging_level cfg)) with
       | Return _ =>
           e = mkExn "ValueError"
                     ("Environment variable " +:+ embedding_api_key_env cfg +:+ " not set")
       | Raise e' => e = e'
       end.
Proof.
  intros Hyaml Hkey. rewrite init_cases, Hyaml.
  destruct (StructuredLogger.threshold_of w (default "INFO" (logging_level cfg))).
  - rewrite Hkey. by eexists _, _.
  - by eexists _, _.
Qed.

(** The environment without the key. *)
Lemma init_missing_key_witness :
  exists l,
    init "config.yaml" Sample.w_nokey =
    (Raise (mkExn "ValueError" "Environment variable GOOGLE_API_KEY not set"),
     observe l [EvOpen "config.yaml"] Sample.w_nokey).
Proof.
  destruct (init_missing_key "config.yaml" Sample.w_nokey Sample.cfg)
    as (e & l & Hrun & _ & He).
  - reflexivity.
  - reflexivity.
  - exists l. cbn in He. rewrite He in Hrun. exact Hrun.
Defined.

(** A configured logging level that is an attribute of [logging] but no
    level: the logger is refused before the variable is looked up. *)
Example init_refused_level :
  init "config.yaml" Sample2.w_debug
  = (Raise (mkExn "TypeError"
                  "Level not an integer or a valid string: <function debug at 0x7f3a5c1d2e50>"),
     observe [] [EvOpen "config.yaml"] Sample2.w_debug).
Proof. reflexivity. Qed.

(** ** The vector store, statement by statement *)

Lemma run_backend op w :
  chromadb.backend op w =
  match chroma_error w op with
  | Some e => (Raise e, w)
  | None => (Return tt, w)
  end.
Proof. reflexivity. Qed.

Arguments chromadb.backend : simpl never.
Arguments os_makedirs : simpl never.

(** ** The persistence directory *)

(** [os.makedirs] looks at the file system and at the disposition of the
    OS only. *)
Lemma makedirs_ext w w' path :
  fs w' = fs w -> os_error w' = os_error w -> makedirs w' path = makedirs w path.
Proof. intros Hfs Herr. unfold makedirs. by rewrite Hfs, Herr. Qed.

(** When it returns, the path names a directory. *)
Lemma makedirs_dir w path f :
  makedirs w path = Return f -> exists entries, f !! path = Some (Dir entries).
Proof.
  unfold makedirs. destruct (String.eqb path ""); [discriminate|].
  destruct (fs w !! path) as [[entries| |]|] eqn:E; try discriminate.
  - intros [= <-]. by exists entries.
  - destruct (os_error w path); [discriminate|].
    destruct (make_parents _ _ _); [|discriminate].
    intros [= <-]. exists []. by rewrite lookup_insert_eq.
Qed.

(** A directory that is there is left as it is. *)
Lemma makedirs_again w path f entries :
  makedirs w path = Return f ->
  forall w', fs w' !! path = Some (Dir entries) -> makedirs w' path = Return (fs w').
Proof.
  unfold makedirs. destruct (String.eqb path ""); [discriminate|].
  intros _ w' ->. reflexivity.
Qed.

(** The database is written into the directory, which stays one. *)
Lemma with_db_dir path f entries :
  f !! path = Some (Dir entries) ->
  chromadb.with_db path f !! path = Some (Dir (with_entry "chroma.sqlite3" entries)).
Proof. intros H. unfold chromadb.with_db. by rewrite H, lookup_insert_eq. Qed.

Arguments makedirs : simpl never.
Arguments chromadb.with_db : simpl never.
Arguments open_client : simpl never.
Arguments reset_collection : simpl never.

Lemma stored_insert w c m cols name :
  stored (set_chroma (<[c := cols]> m) w) c name = cols !! name.
Proof.
  unfold stored.
  change (chroma (set_chroma (<[c := cols]> m) w)) with (<[c := cols]> m).
  by rewrite lookup_insert_eq.
Qed.

Lemma stored_insert_ne w c c' m cols name :
  c <> c' ->
  stored (set_chroma (<[c := cols]> m) w) c' name
  = match m !! c' with Some cols' => cols' !! name | None => None end.
Proof.
  intros H. unfold stored.
  change (chroma (set_chroma (<[c := cols]> m) w)) with (<[c := cols]> m).
  by rewrite lookup_insert_ne.
Qed.

(** Closes the routine goals about the fields of a world. *)
Ltac frame :=
  cbn [app]; autorewrite with world; rewrite ?app_nil_r;
  try reflexivity; try done; auto.

Ltac close_open :=
  eexists _, _, _; split; [reflexivity|];
  repeat split; frame; try congruence;
  try (cbn; rewrite ?lookup_insert_eq; done);
  try (eexists; cbn; rewrite ?lookup_insert_eq; done).

Section OpenClient.

Context (self : IngestionPipeline) (w : World).

Let c : Client := client_of (config self).

(** What opening the client leaves: the log and the dispositions of the
    backend and of the OS are as before, the stores are as before but for
    a new, empty local database, and on success the client is the one the
    host selects and its database is there.  A local client is opened
    after [os.makedirs] has returned, and its directory is there when it
    is open; a remote client leaves the file system alone. *)
Lemma open_client_spec :
  exists r w1 t,
    open_client self w = (r, w1)
    /\ log w1 = log w
    /\ trace w1 = trace w ++ t
    /\ chroma_error w1 = chroma_error w
    /\ indexing w1 = indexing w /\ settings w1 = settings w
    /\ docling w1 = docling w
    /\ (chroma w1 = chroma w
        \/ chroma w !! c = None /\ chroma w1 = <[c := ∅]> (chroma w))
    /\ (forall c', r = Return c' ->
        c' = c /\ is_Some (chroma w1 !! c) /\ chroma_error w (OpConnect c) = None)
    /\ deletions t = []
    /\ (if String.eqb (vector_db_host (config self)) "localhost" then
          let dir := default "./chroma_db" (vector_db_persist_directory (config self)) in
          (t = [EvMakedirs dir] \/ t = [EvMakedirs dir; EvClient (PersistentClient dir)])
          /\ (forall c', r = Return c' ->
              t = [EvMakedirs dir; EvClient (PersistentClient dir)]
              /\ exists entries, fs w1 !! dir = Some (Dir entries))
          /\ (t = [EvMakedirs dir; EvClient (PersistentClient dir)] ->
              (exists f, makedirs w dir = Return f)
              /\ exists entries, fs w1 !! dir = Some (Dir entries))
        else
          t = [EvClient (HttpClient (vector_db_host (config self))
                                    (vector_db_port (config self)))]
          /\ fs w1 = fs w)
    /\ partial_index w1 = partial_index w /\ os_error w1 = os_error w
    /\ (forall e, r = Raise e -> chroma w1 = chroma w).
Proof.
  subst c. unfold open_client, client_of.
  destruct (String.eqb (vector_db_host (config self)) "localhost").
  - set (dir := default "./chroma_db" (vector_db_persist_directory (config self))).
    unfold os_makedirs, chromadb.new_PersistentClient. do 2 step.
    rewrite (makedirs_ext w (observe [] [EvMakedirs dir] w)) by reflexivity.
    destruct (makedirs w dir) as [f|e] eqn:Emk; cbv beta iota.
    + destruct (makedirs_dir w dir f Emk) as [entries Hdir].
      do 2 step. rewrite run_backend. autorewrite with world. cbn [chroma_error set_fs].
      destruct (chroma_error w (OpConnect (PersistentClient dir))) as [e|] eqn:Eerr.
      * eexists _, _, _. split; [reflexivity|].
        repeat split; frame; try congruence; try (by left); try (by eexists).
      * cbv beta iota. autorewrite with world.
        rewrite (makedirs_again w dir f entries Emk) by exact Hdir.
        autorewrite with world. cbn [app chroma fs set_fs].
        eexists _, _, _. split; [reflexivity|].
        autorewrite with world. cbn [chroma fs set_fs set_chroma log trace chroma_error
          indexing settings docling partial_index os_error].
        rewrite app_nil_r.
        split; [done|]. split; [reflexivity|]. split; [done|]. split; [done|].
        split; [done|]. split; [done|]. split.
        { destruct (chroma w !! PersistentClient dir) eqn:Ec; [by left | by right]. }
        split.
        { intros c' [= <-]. split; [done|]. split; [|done].
          destruct (chroma w !! PersistentClient dir) eqn:Ec;
            [by rewrite Ec | by rewrite lookup_insert_eq]. }
        split; [done|]. split.
        { rewrite (with_db_dir dir f entries Hdir).
          split; [by right|]. split.
          - intros c' _. split; [done | by eexists].
          - intros _. split; by eexists. }
        split; [done|]. split; [done|]. discriminate.
    + eexists _, _, _. split; [reflexivity|].
      repeat split; frame; try congruence; try (by left); discriminate.
  - unfold chromadb.new_HttpClient. do 2 step. rewrite run_backend.
    autorewrite with world.
    set (c := HttpClient (vector_db_host (config self)) (vector_db_port (config self))).
    destruct (chroma_error w (OpConnect c)) as [e|] eqn:Eerr.
    + close_open.
    + cbv beta iota. autorewrite with world.
      destruct (chroma w !! c) eqn:Ec.
      * close_open.
      * close_open.
Qed.

End OpenClient.

Ltac settle :=
  cbv beta iota; autorewrite with world; cbn [chroma_error chroma set_chroma].

Ltac close_store :=
  eexists; split; [reflexivity|];
  repeat split; frame;
  cbn [chroma set_chroma];
  rewrite ?insert_insert_eq, ?lookup_delete_eq;
  try (symmetry; by apply insert_id); try done.

Section AfterOpen.

Context (self : IngestionPipeline) (reset : bool) (w w1 : World).
Context (c : Client) (cols : gmap string (list Entry)).

Let name : string := vector_db_collection_name (config self).

(** The reset deletes the collection when the backend serves the deletion
    and the collection exists. *)
Let deleted : bool :=
  reset && match chroma_error w1 (OpDelete c name), cols !! name with
           | None, Some _ => true
           | _, _ => false
           end.

Let cols2 : gmap string (list Entry) := if deleted then delete name cols else cols.

Let cols3 : gmap string (list Entry) :=
  match chroma_error w1 (OpGetOrCreate c name), cols2 !! name with
  | None, None => <[name := []]> cols2
  | _, _ => cols2
  end.

Hypothesis Hopen : open_client self w = (Return c, w1).
Hypothesis Hcols : chroma w1 !! c = Some cols.

(** [create_vector_store] once the client is open. *)
Lemma create_vector_store_opened :
  exists w',
    create_vector_store self reset w =
    (match chroma_error w1 (OpGetOrCreate c name) with
     | Some e => Raise e
     | None => Return (ChromaVectorStore (mkCollection c name))
     end, w')
    /\ log w' =
       log w1
       ++ (if deleted then [mkLog INFO "Deleted existing collection" []] else [])
       ++ [match chroma_error w1 (OpGetOrCreate c name) with
           | Some e => mkLog ERROR "Failed to create vector store"
                             [("error", JStr (exn_msg e))]
           | None => mkLog INFO "Vector store ready" [("collection", JStr name)]
           end]
    /\ trace w' =
       trace w1 ++ (if reset then [EvDeleteCollection c name] else [])
       ++ [EvGetOrCreateCollection c name]
    /\ chroma w' = <[c := cols3]> (chroma w1)
    /\ fs w' = fs w1 /\ chroma_error w' = chroma_error w1
    /\ indexing w' = indexing w1 /\ settings w' = settings w1
    /\ docling w' = docling w1 /\ partial_index w' = partial_index w1.
Proof.
  subst cols3 cols2 deleted name.
  set (name := vector_db_collection_name (config self)).
  unfold create_vector_store. do 2 step. rewrite Hopen. settle.
  unfold reset_collection, chromadb.delete_collection, chromadb.get_or_create_collection.
  fold name.
  destruct reset; cbn [andb].
  - do 4 step. rewrite run_backend. autorewrite with world.
    destruct (chroma_error w1 (OpDelete c name)) as [e|] eqn:Edel; settle.
    + (* the backend refuses the deletion *)
      do 3 step. rewrite run_backend. autorewrite with world.
      destruct (chroma_error w1 (OpGetOrCreate c name)) as [e'|] eqn:Egoc;
        settle.
      * do 2 step. close_store.
      * rewrite Hcols. destruct (cols !! name) eqn:En; do 2 step; close_store.
    + rewrite Hcols. destruct (cols !! name) as [old|] eqn:En; settle.
      * (* the collection is there and is deleted *)
        do 4 step. rewrite run_backend. autorewrite with world.
        cbn [chroma_error chroma set_chroma].
        destruct (chroma_error w1 (OpGetOrCreate c name)) as [e'|] eqn:Egoc;
          settle.
        -- do 2 step. close_store.
        -- rewrite lookup_insert_eq, lookup_delete_eq. do 2 step. close_store.
      * (* there is no such collection *)
        do 3 step. rewrite run_backend. autorewrite with world.
        destruct (chroma_error w1 (OpGetOrCreate c name)) as [e'|] eqn:Egoc;
          settle.
        -- do 2 step. close_store.
        -- rewrite Hcols, En. do 2 step. close_store.
  - do 4 step. rewrite run_backend. autorewrite with world.
    destruct (chroma_error w1 (OpGetOrCreate c name)) as [e'|] eqn:Egoc;
      settle.
    + do 2 step. close_store.
    + rewrite Hcols. destruct (cols !! name) eqn:En; do 2 step; close_store.
Qed.

End AfterOpen.

(** [create_vector_store] when the client cannot be opened. *)
Lemma create_vector_store_not_opened self reset w e w1 :
  open_client self w = (Raise e, w1) ->
  create_vector_store self reset w =
  (Raise e,
   observe [mkLog ERROR "Failed to create vector store" [("error", JStr (exn_msg e))]]
           [] w1).
Proof.
  intros H. unfold create_vector_store. do 2 step. rewrite H. do 2 step.
  reflexivity.
Qed.

Lemma clients_opened_app t1 t2 :
  clients_opened (t1 ++ t2) = clients_opened t1 ++ clients_opened t2.
Proof. apply flat_map_app. Qed.

Lemma deletions_app t1 t2 : deletions (t1 ++ t2) = deletions t1 ++ deletions t2.
Proof. apply flat_map_app. Qed.

(** ** Claims about [create_vector_store] *)


(** A local store in a fresh directory: the directory is made and the
    database is in it. *)
Example local_store_in_fresh_directory :
  fs Sample.w_two !! "./chroma_db" = None
  /\ fst (create_vector_store Sample.pipeline false Sample.w_two)
     = Return (ChromaVectorStore
                 (mkCollection (PersistentClient "./chroma_db") "n26_docs"))
  /\ fs (snd (create_vector_store Sample.pipeline false Sample.w_two)) !! "./chroma_db"
     = Some (Dir ["chroma.sqlite3"]).
Proof. repeat split; vm_compute; reflexivity. Qed.

(** The empty path as persistence directory: [os.makedirs] raises, and no
    client is opened. *)
Example empty_persist_directory :
  fst (create_vector_store (mkPipeline Sample2.cfg_nowhere 20) false Sample.w_two)
  = Raise (mkExn "FileNotFoundError" "[Errno 2] No such file or directory: ''")
  /\ clients_opened
       (trace (snd (create_vector_store (mkPipeline Sample2.cfg_nowhere 20) false
                      Sample.w_two)))
     = [].
Proof. split; vm_compute; reflexivity. Qed.

(** Opening the client leaves what is stored under it as it is. *)
Lemma open_client_stored self w r w1 :
  open_client self w = (r, w1) ->
  forall c name,
    stored w1 c name = stored w c name
    \/ stored w c name = None /\ stored w1 c name = None.
Proof.
  intros H c name.
  destruct (open_client_spec self w)
    as (r' & w1' & t & Hopen & _ & _ & _ & _ & _ & _ & Hch & _).
  rewrite H in Hopen. injection Hopen as <- <-.
  unfold stored. destruct Hch as [-> | [Hnone ->]]; [by left|].
  destruct (decide (client_of (config self) = c)) as [<-|Hne].
  - right. by rewrite lookup_insert_eq, Hnone, lookup_empty.
  - left. by rewrite lookup_insert_ne.
Qed.

(** Once the client has been opened, it opens again. *)
Lemma open_client_again self w c w1 w' :
  open_client self w = (Return c, w1) ->
  fs w' = fs w1 -> chroma_error w' = chroma_error w -> is_Some (chroma w' !! c) ->
  exists w2, open_client self w' = (Return c, w2).
Proof.
  intros Hopen Hfs Herr [cols Hcols].
  destruct (open_client_spec self w)
    as (r' & w1' & t & Hopen' & _ & _ & _ & _ & _ & _ & _ & Hret & _ & Hhost & _).
  rewrite Hopen in Hopen'. injection Hopen' as <- <-.
  destruct (Hret c eq_refl) as (-> & _ & Hconn).
  unfold open_client, client_of in *.
  destruct (String.eqb (vector_db_host (config self)) "localhost").
  - destruct Hhost as (_ & Ht & Hmk).
    destruct (Ht _ eq_refl) as [Htr [entries Hdir]].
    destruct (Hmk Htr) as [[f Hf] _]. rewrite <- Hfs in Hdir.
    unfold os_makedirs, chromadb.new_PersistentClient. do 2 step.
    rewrite (makedirs_ext w' (observe _ _ w')) by reflexivity.
    rewrite (makedirs_again w _ f entries Hf w' Hdir). cbv beta iota.
    do 2 step. rewrite run_backend. autorewrite with world.
    cbn [chroma_error set_fs]. rewrite Herr, Hconn. cbv beta iota.
    match goal with
    | |- context [makedirs ?w0 ?d] =>
        rewrite (makedirs_again w d f entries Hf w0) by exact Hdir
    end.
    by eexists.
  - unfold chromadb.new_HttpClient. do 2 step. rewrite run_backend.
    autorewrite with world. rewrite Herr, Hconn. settle. rewrite Hcols.
    by eexists.
Qed.

Section Reset.

Context (self : IngestionPipeline).

Local Abbreviation name := (vector_db_collection_name (config self)).

(** One reset, when the client opens and the backend serves
    get-or-create. *)
Lemma reset_once w c w1 :
  open_client self w = (Return c, w1) ->
  chroma_error w (OpGetOrCreate c name) = None ->
  exists w',
    create_vector_store self true w
    = (Return (ChromaVectorStore (mkCollection c name)), w')
    /\ log w' =
       log w
       ++ match chroma_error w (OpDelete c name), stored w c name with
          | None, Some _ => [mkLog INFO "Deleted existing collection" []]
          | _, _ => []
          end
       ++ [mkLog INFO "Vector store ready" [("collection", JStr name)]]
    /\ deletions (trace w') = deletions (trace w) ++ [(c, name)]
    /\ fs w' = fs w1 /\ chroma_error w' = chroma_error w
    /\ is_Some (chroma w' !! c)
    /\ match chroma_error w (OpDelete c name), stored w c name with
       | Some _, Some old => stored w' c name = Some old
       | _, _ => stored w' c name = Some []
       end.
Proof.
  intros Hopen Hgoc.
  destruct (open_client_spec self w)
    as (r' & w0 & t & Hopen' & Hlog & Htr & Herr & _ & _ & _ & _ & Hret & Hdel & _).
  rewrite Hopen in Hopen'. injection Hopen' as <- <-.
  destruct (Hret c eq_refl) as (Hc & [cols Hcols] & _). rewrite <- Hc in Hcols.
  destruct (create_vector_store_opened self true w w1 c cols Hopen Hcols)
    as (w' & Hrun & Hlog' & Htr' & Hch & Hfs & Herr' & _).
  cbn [andb] in Hlog', Hch. rewrite Herr, Hgoc in Hrun, Hch.
  rewrite Herr, Hgoc, Hlog in Hlog'.
  assert (Hst : stored w c name = cols !! name).
  { destruct (open_client_stored self w _ w1 Hopen c name) as [<- | [-> H1]].
    - unfold stored. by rewrite Hcols.
    - unfold stored in H1. by rewrite Hcols in H1. }
  exists w'. split; [exact Hrun|]. split.
  { rewrite Hlog', Hst.
    by destruct (chroma_error w (OpDelete c name)), (cols !! name). }
  split.
  { rewrite Htr', Htr, !deletions_app, Hdel. cbn. by rewrite app_nil_r. }
  split; [done|]. split; [congruence|].
  rewrite Hst. unfold stored. rewrite Hch, lookup_insert_eq. clear Hch Hlog'.
  destruct (chroma_error w (OpDelete c name)) as [e|];
    destruct (cols !! name) as [old|] eqn:En;
    cbv beta iota;
    rewrite ?En, ?lookup_delete_eq; cbv beta iota;
    rewrite ?En, ?lookup_insert_eq; (split; [by eexists|]);
    rewrite ?En, ?lookup_delete_eq; cbv beta iota;
    rewrite ?En, ?lookup_insert_eq; done.
Qed.

Lemma errors_reset_log (del : list LogRecord) :
  (del = [] \/ del = [mkLog INFO "Deleted existing collection" []]) ->
  errors (del ++ [mkLog INFO "Vector store ready" [("collection", JStr name)]]) = [].
Proof. by intros [-> | ->]. Qed.

(** C3.  With [reset=true], when the client opens and the backend serves
    get-or-create, [create_vector_store] asks for the deletion of the named
    collection and returns the vector store of that collection without
    raising, whether the deletion succeeds, is refused by the backend, or
    fails because the collection does not exist.  A deletion that fails
    leaves no record in the log: the records added are "Deleted existing
    collection", only when the deletion succeeded, and "Vector store
    ready".  The collection exists afterwards; it is empty when the
    deletion was served or when the collection was absent or empty before
    (when the backend refuses the deletion, the collection keeps what it
    held).  Resetting again does not raise either, logs no error, and
    leaves the collection as it is. *)
Theorem reset_is_idempotent (w : World) (c : Client) (w1 : World) :
  open_client self w = (Return c, w1) ->
  chroma_error w (OpGetOrCreate c name) = None ->
  exists w' w'',
    create_vector_store self true w
    = (Return (ChromaVectorStore (mkCollection c name)), w')
    /\ log w' =
       log w
       ++ match chroma_error w (OpDelete c name), stored w c name with
          | None, Some _ => [mkLog INFO "Deleted existing collection" []]
          | _, _ => []
          end
       ++ [mkLog INFO "Vector store ready" [("collection", JStr name)]]
    /\ deletions (trace w') = deletions (trace w) ++ [(c, name)]
    /\ match chroma_error w (OpDelete c name), stored w c name with
       | Some _, Some old => stored w' c name = Some old
       | _, _ => stored w' c name = Some []
       end
    /\ create_vector_store self true w'
       = (Return (ChromaVectorStore (mkCollection c name)), w'')
    /\ errors (log w'') = errors (log w)
    /\ stored w'' c name = stored w' c name.
Proof.
  intros Hopen Hgoc.
  destruct (reset_once w c w1 Hopen Hgoc)
    as (w' & Hrun & Hlog & Hdel & Hfs & Herr & Hsome & Hfresh).
  destruct (open_client_again self w c w1 w' Hopen Hfs Herr Hsome) as [w2 Hagain].
  assert (Hgoc' : chroma_error w' (OpGetOrCreate c name) = None) by congruence.
  destruct (reset_once w' c _ Hagain Hgoc')
    as (w'' & Hrun' & Hlog' & _ & _ & _ & _ & Hfresh').
  exists w', w''. repeat split; try done.
  - rewrite Hlog', errors_app, errors_reset_log, app_nil_r
      by (destruct (chroma_error w' (OpDelete c name)), (stored w' c name);
          (by left) || (by right)).
    rewrite Hlog, errors_app, errors_reset_log, app_nil_r
      by (destruct (chroma_error w (OpDelete c name)), (stored w c name);
          (by left) || (by right)).
    reflexivity.
  - rewrite Herr in Hfresh'.
    destruct (chroma_error w (OpDelete c name)) as [e|];
      destruct (stored w c name) as [old|];
      rewrite ?Hfresh in Hfresh'; rewrite Hfresh; done.
Qed.

End Reset.

(** A store without the collection: both resets return, and the collection
    is there and empty. *)
Lemma reset_is_idempotent_witness :
  exists w' w'',
    create_vector_store Sample.pipeline true Sample.w_two
    = (Return (ChromaVectorStore
                 (mkCollection (PersistentClient "./chroma_db") "n26_docs")), w')
    /\ stored w' (PersistentClient "./chroma_db") "n26_docs" = Some []
    /\ create_vector_store Sample.pipeline true w'
       = (Return (ChromaVectorStore
                    (mkCollection (PersistentClient "./chroma_db") "n26_docs")), w'').
Proof.
  destruct (reset_is_idempotent Sample.pipeline Sample.w_two
              (PersistentClient "./chroma_db")
              (snd (open_client Sample.pipeline Sample.w_two)))
    as (w' & w'' & H1 & _ & _ & H5 & H6 & _).
  - reflexivity.
  - reflexivity.
  - exists w', w''. split; [exact H1|]. split; [exact H5 | exact H6].
Defined.

(** ** Stored entries across the steps of [run] *)

Lemma keeps_entries_same w w' :
  (forall c name, stored w' c name = stored w c name) -> keeps_entries w w'.
Proof.
  intros H c name entries Hs. exists []. by rewrite H, app_nil_r.
Qed.

Lemma keeps_entries_trans w1 w2 w3 :
  keeps_entries w1 w2 -> keeps_entries w2 w3 -> keeps_entries w1 w3.
Proof.
  intros H12 H23 c name entries Hs.
  destruct (H12 c name entries Hs) as [a1 H1].
  destruct (H23 c name _ H1) as [a2 H2].
  exists (a1 ++ a2). by rewrite H2, app_assoc.
Qed.

(** ** The indexer *)

(** What a failing call had stored stays in the collection, after what the
    collection held; nothing else changes. *)
Lemma run_keep_partial col entries w :
  exists ch,
    keep_partial col entries w = (Return tt, set_chroma ch w)
    /\ (forall old,
          stored w (collection_client col) (collection_name col) = Some old ->
          stored (set_chroma ch w) (collection_client col) (collection_name col)
          = Some (old ++ entries))
    /\ (forall c name,
          (c, name) <> (collection_client col, collection_name col) ->
          stored (set_chroma ch w) c name = stored w c name)
    /\ keeps_entries w (set_chroma ch w).
Proof.
  unfold keep_partial.
  set (c := collection_client col). set (name := collection_name col).
  assert (Hsame : set_chroma (chroma w) w = w) by (by destruct w).
  destruct (chroma w !! c) as [cols|] eqn:Ec.
  - destruct (cols !! name) as [old|] eqn:En.
    + eexists. split; [reflexivity|]. split; [|split].
      * intros old' Hold. unfold stored in Hold. rewrite Ec, En in Hold.
        injection Hold as <-. by rewrite stored_insert, lookup_insert_eq.
      * intros c' n Hne. destruct (decide (c = c')) as [<-|Hc].
        -- rewrite stored_insert. unfold stored. rewrite Ec.
           apply lookup_insert_ne. congruence.
        -- rewrite stored_insert_ne by done. reflexivity.
      * intros c' n entries' Hs. destruct (decide (c = c')) as [<-|Hc].
        -- rewrite stored_insert. unfold stored in Hs. rewrite Ec in Hs.
           destruct (decide (name = n)) as [<-|Hn].
           ++ rewrite En in Hs. injection Hs as <-. exists entries.
              by rewrite lookup_insert_eq.
           ++ exists []. by rewrite lookup_insert_ne, app_nil_r.
        -- exists []. rewrite stored_insert_ne by done. by rewrite app_nil_r.
    + exists (chroma w). rewrite Hsame. split; [done|]. split; [|split; [done|]].
      * intros old Hold. unfold stored in Hold. by rewrite Ec, En in Hold.
      * by apply keeps_entries_same.
  - exists (chroma w). rewrite Hsame. split; [done|]. split; [|split; [done|]].
    + intros old Hold. unfold stored in Hold. by rewrite Ec in Hold.
    + by apply keeps_entries_same.
Qed.

Arguments keep_partial : simpl never.

(** The handler of the indexer. *)
Lemma run_partial vs documents e w :
  (partial <- (fun w => (Return (partial_index w (settings w) documents), w)) ;;
   keep_partial (chroma_collection vs) partial ;;
   raise (A := Index) e) w
  = (Raise e,
     snd (keep_partial (chroma_collection vs)
            (partial_index w (settings w) documents) w)).
Proof.
  do 2 step.
  destruct (run_keep_partial (chroma_collection vs)
              (partial_index w (settings w) documents) w) as (ch & -> & _).
  by step.
Qed.

(** The indexer, case by case: it returns when the entries are made, the
    backend serves the addition and the collection is there; otherwise it
    raises, after storing what it had stored by then. *)
Lemma from_documents_cases documents vs w :
  let c := collection_client (chroma_collection vs) in
  let name := collection_name (chroma_collection vs) in
  let w0 := observe [] [EvFromDocuments vs (length documents)] w in
  VectorStoreIndex_from_documents documents vs w
  = match indexing w (settings w) documents, chroma_error w (OpAdd c name),
          chroma w !! c with
    | Return entries, None, Some cols =>
        match cols !! name with
        | Some old =>
            (Return (mkIndex vs entries),
             set_chroma (<[c := <[name := old ++ entries]> cols]> (chroma w)) w0)
        | None =>
            (Raise (mkExn "ValueError" ("Collection " +:+ name +:+ " does not exist.")),
             w0)
        end
    | Return entries, None, None => (Raise chromadb.not_connected, w0)
    | Return entries, Some e, _ =>
        (Raise e,
         snd (keep_partial (chroma_collection vs)
                (partial_index w (settings w) documents) w0))
    | Raise e, _, _ =>
        (Raise e,
         snd (keep_partial (chroma_collection vs)
                (partial_index w (settings w) documents) w0))
    end.
Proof.
  intros c name w0.
  unfold VectorStoreIndex_from_documents, chromadb.add. fold c name.
  step. fold w0. rewrite run_try, run_bind. cbv beta iota.
  change (indexing w0) with (indexing w). change (settings w0) with (settings w).
  destruct (indexing w (settings w) documents) as [entries|e]; cbv beta iota.
  2: { rewrite run_partial. reflexivity. }
  rewrite !run_bind, run_backend.
  change (chroma_error w0) with (chroma_error w).
  destruct (chroma_error w (OpAdd c name)) as [e|]; cbv beta iota.
  { rewrite run_partial. reflexivity. }
  change (chroma w0) with (chroma w).
  destruct (chroma w !! c) as [cols|] eqn:Ec; cbv beta iota.
  2: { rewrite run_partial. unfold keep_partial. fold c name.
       change (chroma w0) with (chroma w). by rewrite Ec. }
  destruct (cols !! name) as [old|] eqn:En; cbv beta iota.
  - rewrite run_ret. reflexivity.
  - rewrite run_partial. unfold keep_partial. fold c name.
    change (chroma w0) with (chroma w). by rewrite Ec, En.
Qed.

(** The indexer adds to the collection of the vector store and to nothing
    else. *)
Lemma from_documents_spec documents vs w :
  exists r w',
    VectorStoreIndex_from_documents documents vs w = (r, w')
    /\ log w' = log w
    /\ trace w' = trace w ++ [EvFromDocuments vs (length documents)]
    /\ keeps_entries w w'
    /\ forall index, r = Return index ->
         stored w' (collection_client (chroma_collection vs))
                   (collection_name (chroma_collection vs))
         = Some (default [] (stored w (collection_client (chroma_collection vs))
                                      (collection_name (chroma_collection vs)))
                 ++ index_entries index).
Proof.
  rewrite from_documents_cases.
  set (c := collection_client (chroma_collection vs)).
  set (name := collection_name (chroma_collection vs)).
  set (w0 := observe [] [EvFromDocuments vs (length documents)] w).
  assert (Hfail : forall e,
             exists r w',
               (Raise e,
                snd (keep_partial (chroma_collection vs)
                       (partial_index w (settings w) documents) w0)) = (r, w')
               /\ log w' = log w
               /\ trace w' = trace w ++ [EvFromDocuments vs (length documents)]
               /\ keeps_entries w w'
               /\ forall index, r = Return index ->
                    stored w' c name
                    = Some (default [] (stored w c name) ++ index_entries index)).
  { intros e.
    destruct (run_keep_partial (chroma_collection vs)
                (partial_index w (settings w) documents) w0)
      as (ch & -> & _ & _ & Hkeep).
    eexists _, _. split; [reflexivity|]. cbn [snd]. subst w0.
    rewrite set_chroma_observe. autorewrite with world. cbn [app log trace set_chroma].
    rewrite app_nil_r. by repeat split. }
  assert (Hsame : forall e,
             exists r w',
               (Raise (A := Index) e, w0) = (r, w')
               /\ log w' = log w
               /\ trace w' = trace w ++ [EvFromDocuments vs (length documents)]
               /\ keeps_entries w w'
               /\ forall index, r = Return index ->
                    stored w' c name
                    = Some (default [] (stored w c name) ++ index_entries index)).
  { intros e. eexists _, _. split; [reflexivity|]. subst w0.
    autorewrite with world. rewrite app_nil_r. repeat split; try done.
    by apply keeps_entries_same. }
  destruct (indexing w (settings w) documents) as [entries|e]; [|apply Hfail].
  destruct (chroma_error w (OpAdd c name)) as [e|]; [apply Hfail|].
  destruct (chroma w !! c) as [cols|] eqn:Ec; [|apply Hsame].
  destruct (cols !! name) as [old|] eqn:En; [|apply Hsame].
  eexists _, _. split; [reflexivity|]. subst w0.
  rewrite set_chroma_observe. autorewrite with world. cbn [app log trace set_chroma].
  rewrite app_nil_r. repeat split; try done.
  - intros c' name' entries' Hs. rewrite stored_observe.
    destruct (decide (c = c')) as [<-|Hc].
    + rewrite stored_insert.
      destruct (decide (name = name')) as [<-|Hn].
      * unfold stored in Hs. rewrite Ec, En in Hs. injection Hs as <-.
        exists entries. by rewrite lookup_insert_eq.
      * exists []. rewrite lookup_insert_ne by done. unfold stored in Hs.
        rewrite Ec in Hs. by rewrite app_nil_r.
    + exists []. rewrite stored_insert_ne by done. by rewrite app_nil_r.
  - intros index [= <-]. rewrite stored_insert, lookup_insert_eq.
    unfold stored. by rewrite Ec, En.
Qed.

(** Without reset, [create_vector_store] asks for no deletion and leaves
    every stored entry where it is; the collection it returns holds what
    it held before, nothing when it is new. *)
Lemma create_vector_store_keeps self w :
  exists r w',
    create_vector_store self false w = (r, w')
    /\ deletions (trace w') = deletions (trace w)
    /\ (forall c name entries,
          stored w c name = Some entries -> stored w' c name = Some entries)
    /\ indexing w' = indexing w /\ settings w' = settings w
    /\ forall vs, r = Return vs ->
         vs = ChromaVectorStore
                (mkCollection (client_of (config self))
                              (vector_db_collection_name (config self)))
         /\ stored w' (client_of (config self)) (vector_db_collection_name (config self))
            = Some (default [] (stored w (client_of (config self))
                                         (vector_db_collection_name (config self)))).
Proof.
  destruct (open_client_spec self w)
    as (r & w1 & t & Hopen & Hlog & Htr & Herr & Hix & Hset & _ & _ & Hret & Hdel & _).
  pose proof (open_client_stored self w r w1 Hopen) as Hst.
  assert (Hkeep1 : forall c name entries,
             stored w c name = Some entries -> stored w1 c name = Some entries).
  { intros c name entries Hs. destruct (Hst c name) as [-> | [H _]]; congruence. }
  destruct r as [c|e].
  - destruct (Hret c eq_refl) as (-> & [cols Hcols] & _).
    destruct (create_vector_store_opened self false w w1 _ cols Hopen Hcols)
      as (w' & Hrun & _ & Htr' & Hch & _ & _ & Hix' & Hset' & _).
    cbn [andb] in Hch. cbv beta iota zeta in Hch, Hrun.
    set (c := client_of (config self)) in *.
    set (name := vector_db_collection_name (config self)) in *.
    assert (Hcols1 : forall n, stored w1 c n = cols !! n)
      by (intros n; unfold stored; by rewrite Hcols).
    assert (Hother : forall c' n, c <> c' -> stored w' c' n = stored w1 c' n)
      by (intros c' n Hc; unfold stored; by rewrite Hch, lookup_insert_ne).
    assert (Hold : stored w1 c name = stored w c name).
    { destruct (Hst c name) as [H | [H H1]]; [exact H | by rewrite H, H1]. }
    eexists _, _. split; [exact Hrun|]. split; [|split; [|split; [|split]]].
    + rewrite Htr', Htr, !deletions_app, Hdel. cbn. by rewrite ?app_nil_r.
    + intros c' n entries Hs. apply Hkeep1 in Hs.
      destruct (decide (c = c')) as [<-|Hc]; [|by rewrite Hother].
      rewrite Hcols1 in Hs. unfold stored. rewrite Hch, lookup_insert_eq.
      destruct (chroma_error w1 (OpGetOrCreate c name)); [done|].
      destruct (cols !! name) eqn:En; [done|].
      destruct (decide (name = n)) as [<-|Hn];
        [congruence | by rewrite lookup_insert_ne].
    + congruence.
    + congruence.
    + intros vs Hvs. rewrite <- Hold, Hcols1. unfold stored.
      rewrite Hch, lookup_insert_eq.
      destruct (chroma_error w1 (OpGetOrCreate c name)); [done|].
      injection Hvs as <-. split; [done|].
      destruct (cols !! name) eqn:En; [by rewrite En | by rewrite lookup_insert_eq].
  - rewrite (create_vector_store_not_opened self false w e w1 Hopen).
    eexists _, _. split; [reflexivity|]. repeat split; frame.
    + by rewrite Htr, deletions_app, Hdel, app_nil_r.
Qed.

Lemma loader_events_no_deletion t :
  forallb is_loader_event t = true -> deletions t = [].
Proof.
  induction t as [|ev t IH]; [done|]. cbn [forallb].
  intros [Hev Ht]%andb_true_iff.
  change (deletions (ev :: t))
    with (match ev with EvDeleteCollection c n => [(c, n)] | _ => [] end ++ deletions t).
  rewrite (IH Ht). by destruct ev.
Qed.

Arguments VectorStoreIndex_from_documents : simpl never.

Ltac tidy := cbn [app fst snd]; autorewrite with world; rewrite ?app_nil_r.

(** What a run without reset does to the stores. *)
Lemma run_additive self w :
  deletions (trace (snd (run self false w))) = deletions (trace w)
  /\ keeps_entries w (snd (run self false w))
  /\ match fst (run self false w) with
     | Return (Some index) =>
         stored (snd (run self false w)) (client_of (config self))
                (vector_db_collection_name (config self))
         = Some (default [] (stored w (client_of (config self))
                                      (vector_db_collection_name (config self)))
                 ++ index_entries index)
     | _ => True
     end.
Proof.
  unfold run. do 3 step.
  set (w0 := observe [mkLog INFO "Starting ingestion pipeline"
                            [("reset_collection", JBool false)]] [] w).
  destruct (load_documents_frame self
              (Path_of (ingestion_data_directory (config self))) w0)
    as (l & t & Hw & Ht).
  destruct (load_documents self (Path_of (ingestion_data_directory (config self))) w0)
    as [r1 wl] eqn:Hl.
  cbn [snd] in Hw. subst wl w0. autorewrite with world in *.
  pose proof (loader_events_no_deletion t Ht) as Hdel.
  destruct r1 as [[|doc documents]|e].
  - (* no document *)
    do 2 step. tidy.
    rewrite deletions_app, Hdel, app_nil_r. repeat split.
    by apply keeps_entries_same.
  - (* some documents *)
    step.
    match goal with
    | |- context [create_vector_store self false ?w0] =>
        destruct (create_vector_store_keeps self w0)
          as (r2 & wv & Hv & Hdelv & Hkeepv & Hix & Hset & Hret)
    end.
    autorewrite with world in Hdelv, Hkeepv, Hret.
    rewrite deletions_app in Hdelv. cbn [app] in Hdelv. rewrite Hdel, app_nil_r in Hdelv.
    rewrite Hv. destruct r2 as [vs|e].
    + destruct (Hret vs eq_refl) as [-> Hnew].
      do 2 step.
      match goal with
      | |- context [VectorStoreIndex_from_documents ?docs ?vs ?w0] =>
          destruct (from_documents_spec docs vs w0)
            as (r3 & wi & Hi & Hlogi & Htri & Hkeepi & Hreti)
      end.
      autorewrite with world in Htri, Hreti. rewrite app_nil_r in Htri. rewrite Hi.
      assert (Hkeep : keeps_entries w wi).
      { intros c name entries Hs. apply Hkeepv in Hs. apply Hkeepi.
        by rewrite stored_observe. }
      assert (Hd : deletions (trace wi) = deletions (trace w)).
      { rewrite Htri, deletions_app, Hdelv. cbn. by rewrite ?app_nil_r. }
      destruct r3 as [index|e].
      * do 3 step. tidy. split; [done|]. split.
        -- intros c name entries Hs. rewrite stored_observe. by apply Hkeep.
        -- cbn [chroma_collection collection_client collection_name] in Hreti.
           rewrite (Hreti index eq_refl), Hnew. reflexivity.
      * do 2 step. tidy. split; [done|]. split; [|done].
        intros c name entries Hs. rewrite stored_observe. by apply Hkeep.
    + do 2 step. tidy. split; [done|]. split; [|done].
      intros c name entries Hs. rewrite stored_observe. exists [].
      rewrite app_nil_r. by apply Hkeepv.
  - (* the loading raised *)
    do 2 step. tidy.
    rewrite deletions_app, Hdel, app_nil_r. repeat split.
    by apply keeps_entries_same.
Qed.

(** C4.  Without reset, [create_vector_store] never asks for the deletion
    of a collection, and every collection of every store holds afterwards
    the entries it held before.  A run without reset asks for no deletion
    either and loses no stored entry; when it returns an index, the
    configured collection holds the entries it held before followed by the
    entries of that index, so that a second run adds its vectors after
    those of the first. *)
Theorem additive_by_default (self : IngestionPipeline) (w : World) :
  (deletions (trace (snd (create_vector_store self false w))) = deletions (trace w)
   /\ forall c name entries,
        stored w c name = Some entries ->
        stored (snd (create_vector_store self false w)) c name = Some entries)
  /\ deletions (trace (snd (run self false w))) = deletions (trace w)
  /\ keeps_entries w (snd (run self false w))
  /\ match fst (run self false w) with
     | Return (Some index) =>
         stored (snd (run self false w)) (client_of (config self))
                (vector_db_collection_name (config self))
         = Some (default [] (stored w (client_of (config self))
                                      (vector_db_collection_name (config self)))
                 ++ index_entries index)
     | _ => True
     end.
Proof.
  split; [|apply run_additive].
  destruct (create_vector_store_keeps self w) as (r & w' & H & Hdel & Hkeep & _).
  rewrite H. by split.
Qed.

(** Two runs without reset over the directory of two files: the collection
    holds the two entries of the first run and then the two entries of the
    second. *)
Lemma additive_by_default_witness :
  stored (snd (run Sample.pipeline false (snd (run Sample.pipeline false Sample.w_two))))
         (PersistentClient "./chroma_db") "n26_docs"
  = Some ([mkEntry "text of data/c.pdf" [("source", "data/c.pdf")];
           mkEntry "text of data/a.txt" [("source", "data/a.txt")]]
          ++ [mkEntry "text of data/c.pdf" [("source", "data/c.pdf")];
              mkEntry "text of data/a.txt" [("source", "data/a.txt")]]).
Proof.
  exact (proj2 (proj2 (proj2
           (additive_by_default Sample.pipeline
              (snd (run Sample.pipeline false Sample.w_two)))))).
Defined.

(** * Beyond the claims *)

(** ** [run], case by case *)

Arguments run : simpl never.

Lemma run_cases self reset w :
  run self reset w =
  match load_documents self (Path_of (ingestion_data_directory (config self)))
          (observe [starting reset] [] w) with
  | (Raise e, wl) => (Raise e, observe [failure "Ingestion pipeline failed" e] [] wl)
  | (Return [], wl) => (Return None, observe [mkLog ERROR "No documents loaded" []] [] wl)
  | (Return (doc :: docs), wl) =>
      match create_vector_store self reset wl with
      | (Raise e, wv) => (Raise e, observe [failure "Ingestion pipeline failed" e] [] wv)
      | (Return vector_store, wv) =>
          match VectorStoreIndex_from_documents (doc :: docs) vector_store
                  (observe [mkLog INFO "Building vector index..." []] [] wv) with
          | (Raise e, wi) =>
              (Raise e, observe [failure "Ingestion pipeline failed" e] [] wi)
          | (Return index, wi) =>
              (Return (Some index),
               observe [mkLog INFO "Vector index built successfully"
                              [("latency_seconds", JSeconds)];
                        mkLog INFO "Ingestion pipeline completed successfully"
                              [("total_documents",
                                JInt (Z.of_nat (length (doc :: docs))));
                               ("total_time_seconds", JSeconds)]]
                       [] wi)
          end
      end
  end.
Proof.
  unfold run, starting, failure. do 3 step.
  destruct (load_documents self _ _) as [[[|doc docs]|e] wl].
  - do 2 step. reflexivity.
  - step. destruct (create_vector_store self reset wl) as [[vs|e] wv].
    + do 2 step.
      destruct (VectorStoreIndex_from_documents _ _ _) as [[index|e] wi].
      * do 3 step. reflexivity.
      * do 2 step. reflexivity.
    + do 2 step. reflexivity.
  - do 2 step. reflexivity.
Qed.

(** ** More about [load_documents] *)

Section FileRecords.

Context (w : World).

Lemma docs_of_parsed (files : list Path) :
  flat_map (docs_of w) files
  = flat_map (docs_of w) (List.filter (fun p => negb (fails w p)) files).
Proof.
  induction files as [|p files IH]; [reflexivity|].
  cbn [flat_map List.filter]. unfold fails at 1, docs_of at 1.
  destruct (docling w (str p)) as [docs|e] eqn:E; cbn [negb].
  - cbn [flat_map]. unfold docs_of at 2. by rewrite E, IH.
  - exact IH.
Qed.

Lemma errors_file_records (files : list Path) :
  errors (map (file_record w) files)
  = flat_map
      (fun p => match docling w (str p) with
                | Raise e =>
                    [mkLog ERROR "Failed to load document"
                           [("file", JStr (str p)); ("error", JStr (exn_msg e))]]
                | Return _ => []
                end) files.
Proof.
  induction files as [|p files IH]; [reflexivity|].
  cbn [map flat_map]. rewrite errors_cons. unfold file_record at 1 2.
  destruct (docling w (str p)); cbn [is_error level app]; by rewrite IH.
Qed.

Lemma loaded_file_records (files : list Path) :
  length (loaded (map (file_record w) files))
  = length (List.filter (fun p => negb (fails w p)) files).
Proof.
  induction files as [|p files IH]; [reflexivity|].
  cbn [map List.filter]. rewrite loaded_cons. unfold file_record at 1 2, fails at 1.
  destruct (docling w (str p)); cbn [is_loaded level message negb];
    [change ("Loaded document" =? "Loaded document")%string with true|];
    cbn [length]; by rewrite IH.
Qed.

End FileRecords.

(** The world [load_documents] leaves: the one it found, with more records
    and more calls, the first of which examines the data directory. *)
Lemma load_documents_world self d w :
  exists l t,
    snd (load_documents self d w) = observe l (EvStat (str d) :: t) w
    /\ forallb is_loader_event t = true.
Proof.
  destruct (fs w !! str d) as [node|] eqn:E.
  - assert (Hd : node = NoAccess \/ node <> NoAccess)
      by (destruct node; (by left) || (by right)).
    destruct Hd as [->|Hn].
    + rewrite (load_documents_no_access self d w E). by eexists _, _.
    + assert (H1 : fs w !! str d <> None) by congruence.
      assert (H2 : fs w !! str d <> Some NoAccess) by congruence.
      destruct (found d (ingestion_supported_formats (config self)) w) eqn:F.
      * rewrite (load_documents_none_found self d w H1 H2 F).
        eexists _, _. split; [reflexivity|]. apply loader_events_globs.
      * rewrite (load_documents_some_found self d w H1 H2) by congruence.
        eexists _, _. split; [reflexivity|].
        by rewrite forallb_app, loader_events_globs, loader_events_loads.
  - rewrite (load_documents_absent self d w E). by eexists _, _.
Qed.

(** X1.  Whatever number of matched files fail to parse, [load_documents]
    returns normally with the documents of the files that parse, in order;
    the log gains one error record for each failing file, in the order of
    the calls, naming its path and the message of its failure, and one
    "Loaded document" record for each file that parses. *)
Theorem load_documents_logs_each_failure
  (self : IngestionPipeline) (d : Path) (w : World) (entries : list string) :
  fs w !! str d = Some (Dir entries) ->
  let files := matched_files d (ingestion_supported_formats (config self)) entries in
  exists w',
    load_documents self d w
    = (Return (flat_map (docs_of w) (List.filter (fun p => negb (fails w p)) files)), w')
    /\ errors (log w')
       = errors (log w)
         ++ flat_map
              (fun p => match docling w (str p) with
                        | Raise e =>
                            [mkLog ERROR "Failed to load document"
                                   [("file", JStr (str p)); ("error", JStr (exn_msg e))]]
                        | Return _ => []
                        end) files
    /\ length (loaded (log w'))
       = length (loaded (log w))
         + length (List.filter (fun p => negb (fails w p)) files).
Proof.
  intros E files.
  assert (H1 : fs w !! str d <> None) by congruence.
  assert (H2 : fs w !! str d <> Some NoAccess) by congruence.
  assert (F : found d (ingestion_supported_formats (config self)) w = files)
    by (unfold found; by rewrite E).
  destruct files as [|p rest] eqn:Hfiles.
  - rewrite (load_documents_none_found self d w H1 H2 F).
    eexists. split; [reflexivity|]. rewrite log_observe, errors_app, loaded_app.
    split; [reflexivity|]. rewrite length_app. cbn. lia.
  - rewrite (load_documents_some_found self d w H1 H2) by congruence.
    rewrite F, <- Hfiles. eexists. split; [by rewrite <- docs_of_parsed|].
    rewrite log_observe, errors_app, loaded_app, errors_cons, loaded_cons.
    cbn [is_error is_loaded level message].
    change ("Found documents" =? "Loaded document")%string with false.
    cbv iota. rewrite errors_app, loaded_app, errors_file_records.
    rewrite !length_app, loaded_file_records. cbn. rewrite app_nil_r. split; [done|lia].
Qed.

(** Three files, of which [b.pdf] fails. *)
Lemma load_documents_logs_each_failure_witness :
  exists w',
    load_documents Sample.pipeline (Path_of "data") Sample.w_three
    = (Return [Sample.doc "data/c.pdf"; Sample.doc "data/a.txt"], w')
    /\ errors (log w')
       = [mkLog ERROR "Failed to load document"
                [("file", JStr "data/b.pdf"); ("error", JStr "not a PDF document")]].
Proof.
  destruct (load_documents_logs_each_failure Sample.pipeline (Path_of "data")
              Sample.w_three ["a.txt"; "b.pdf"; "c.pdf"] eq_refl)
    as (w' & Hrun & Herr & _).
  exists w'. split; [exact Hrun | exact Herr].
Defined.

(** X2.  When the data directory cannot be examined, [load_documents] logs
    the one record "Document loading failed" with the message of the
    error and raises that error again; it lists nothing and parses
    nothing. *)
Theorem load_documents_stat_failure (self : IngestionPipeline) (d : Path) (w : World) :
  fs w !! str d = Some NoAccess ->
  exists e,
    load_documents self d w
    = (Raise e, observe [failure "Document loading failed" e] [EvStat (str d)] w)
    /\ exn_class e = "PermissionError".
Proof.
  intros E. eexists. split; [apply (load_documents_no_access self d w E)|reflexivity].
Qed.

Lemma load_documents_stat_failure_witness :
  exists e,
    load_documents Sample.pipeline (Path_of "data") Sample2.w_denied
    = (Raise e,
       observe [failure "Document loading failed" e] [EvStat "data"] Sample2.w_denied).
Proof.
  destruct (load_documents_stat_failure Sample.pipeline (Path_of "data")
              Sample2.w_denied eq_refl) as (e & H & _).
  exists e. exact H.
Defined.

(** X3.  When files match, the records of a load are: "Found documents",
    whose count is the number of calls to the parser; then one record for
    each file, in the order of the calls; then "Document loading complete",
    whose total is the length of the list returned. *)
Theorem load_documents_log_counts
  (self : IngestionPipeline) (d : Path) (w : World) (entries : list string) :
  fs w !! str d = Some (Dir entries) ->
  matched_files d (ingestion_supported_formats (config self)) entries <> [] ->
  exists documents files w',
    load_documents self d w = (Return documents, w')
    /\ parser_calls (trace w') = parser_calls (trace w) ++ map str files
    /\ log w'
       = log w
         ++ mkLog INFO "Found documents" [("count", JInt (Z.of_nat (length files)))]
         :: map (file_record w) files
         ++ [mkLog INFO "Document loading complete"
                   [("total_documents", JInt (Z.of_nat (length documents)));
                    ("latency_seconds", JSeconds)]].
Proof.
  intros E Hne.
  assert (H1 : fs w !! str d <> None) by congruence.
  assert (H2 : fs w !! str d <> Some NoAccess) by congruence.
  assert (F : found d (ingestion_supported_formats (config self)) w
              = matched_files d (ingestion_supported_formats (config self)) entries)
    by (unfold found; by rewrite E).
  rewrite (load_documents_some_found self d w H1 H2) by congruence.
  rewrite F.
  set (files := matched_files d (ingestion_supported_formats (config self)) entries).
  exists (flat_map (docs_of w) files), files. eexists.
  split; [reflexivity|]. split; [|reflexivity].
  rewrite trace_observe, parser_calls_app.
  change (parser_calls (EvStat ?p :: ?t)) with (parser_calls t).
  by rewrite parser_calls_app, parser_calls_globs, parser_calls_loads.
Qed.

(** Two files: the count and the total are both 2. *)
Lemma load_documents_log_counts_witness :
  exists documents files w',
    load_documents Sample.pipeline (Path_of "data") Sample.w_two = (Return documents, w')
    /\ parser_calls (trace w') = parser_calls (trace Sample.w_two) ++ map str files.
Proof.
  destruct (load_documents_log_counts Sample.pipeline (Path_of "data") Sample.w_two
              ["a.txt"; "c.pdf"] eq_refl)
    as (documents & files & w' & Hrun & Hcalls & _).
  - discriminate.
  - exists documents, files, w'. split; [exact Hrun | exact Hcalls].
Defined.

(** X4.  [load_documents] only reads: whatever it returns or raises, the
    environment, the file system, the stores and the global settings are
    as before; the calls it makes are stat, glob and parser calls, and the
    first one examines the data directory. *)
Theorem load_documents_reads_only (self : IngestionPipeline) (d : Path) (w : World) :
  let w' := snd (load_documents self d w) in
  environ w' = environ w /\ yaml_files w' = yaml_files w /\ fs w' = fs w
  /\ chroma w' = chroma w /\ settings w' = settings w
  /\ exists t,
       trace w' = trace w ++ EvStat (str d) :: t
       /\ forallb is_loader_event t = true.
Proof.
  destruct (load_documents_world self d w) as (l & t & Hw & Ht).
  cbn zeta. rewrite Hw. repeat split. by exists t.
Qed.

(** X5.  The supported formats being plain extensions (no wildcard
    character, no path separator), a directory none of whose entries ends
    with a dot and a supported format, however many entries it has: the
    empty list is returned, the one record logged is the warning "No
    documents found", and the parser is not called. *)
Theorem load_documents_no_match
  (self : IngestionPipeline) (d : Path) (w : World) (entries : list string) :
  forallb plain_extension (ingestion_supported_formats (config self)) = true ->
  fs w !! str d = Some (Dir entries) ->
  (forall name ext,
     In name entries -> In ext (ingestion_supported_formats (config self)) ->
     ~ has_extension name ext) ->
  exists w',
    load_documents self d w = (Return [], w')
    /\ log w' = log w ++ [mkLog WARNING "No documents found" [("directory", JStr (str d))]]
    /\ parser_calls (trace w') = parser_calls (trace w).
Proof.
  intros Hplain E Hno.
  assert (H1 : fs w !! str d <> None) by congruence.
  assert (H2 : fs w !! str d <> Some NoAccess) by congruence.
  assert (F : found d (ingestion_supported_formats (config self)) w = []).
  { destruct (found d (ingestion_supported_formats (config self)) w) as [|p rest] eqn:F;
      [done|].
    assert (Hp : In p (found d (ingestion_supported_formats (config self)) w))
      by (rewrite F; by left).
    apply found_matches in Hp as (entries' & name & ext & E' & Hn & He & _ & Hm).
    rewrite E in E'. injection E' as <-.
    destruct (Hno name ext Hn He).
    apply FnmatchFacts.fnmatch_plain; [|done].
    rewrite forallb_forall in Hplain. specialize (Hplain ext He).
    unfold plain_extension in Hplain.
    apply andb_true_iff in Hplain as [Hmagic _].
    by apply negb_true_iff in Hmagic. }
  rewrite (load_documents_none_found self d w H1 H2 F).
  eexists. split; [reflexivity|]. split; [reflexivity|].
  rewrite trace_observe, parser_calls_app.
  change (parser_calls (EvStat ?p :: ?t)) with (parser_calls t).
  by rewrite parser_calls_globs, app_nil_r.
Qed.

(** A backup file among PDF and text formats. *)
Lemma load_documents_no_match_witness :
  exists w',
    load_documents Sample.pipeline (Path_of "data") Sample.w_bak = (Return [], w')
    /\ log w' = [mkLog WARNING "No documents found" [("directory", JStr "data")]].
Proof.
  destruct (load_documents_no_match Sample.pipeline (Path_of "data") Sample.w_bak
              ["notes.bak"]) as (w' & Hrun & Hlog & _).
  - reflexivity.
  - reflexivity.
  - intros name ext [<-|[]] [<-|[<-|[]]] H;
      apply FnmatchFacts.fnmatch_plain in H; (discriminate || reflexivity).
  - exists w'. split; [exact Hrun | exact Hlog].
Defined.

(** ** More about [create_vector_store] *)

(** A client that cannot be opened leaves the stores as they are. *)
Lemma open_client_failed self w e w1 :
  open_client self w = (Raise e, w1) -> chroma w1 = chroma w.
Proof.
  intros H.
  destruct (open_client_spec self w)
    as (r & w1' & t & Hopen & _ & _ & _ & _ & _ & _ & _ & _ & _ & _ & _ & _ & Hraise).
  rewrite H in Hopen. injection Hopen as <- <-. by apply (Hraise e).
Qed.

(** The outcome of [create_vector_store] in terms of its first statement. *)
Lemma create_vector_store_outcome self reset w :
  fst (create_vector_store self reset w)
  = match open_client self w with
    | (Raise e, _) => Raise e
    | (Return c, w1) =>
        match chroma_error w1 (OpGetOrCreate c (vector_db_collection_name (config self))) with
        | Some e => Raise e
        | None =>
            Return (ChromaVectorStore
                      (mkCollection c (vector_db_collection_name (config self))))
        end
    end.
Proof.
  destruct (open_client_spec self w)
    as (r & w1 & t & Hopen & _ & _ & _ & _ & _ & _ & _ & Hret & _).
  rewrite Hopen. destruct r as [c|e].
  - destruct (Hret c eq_refl) as (Hc & [cols Hcols] & _). rewrite <- Hc in Hcols.
    destruct (create_vector_store_opened self reset w w1 c cols Hopen Hcols)
      as (w' & Hrun & _).
    by rewrite Hrun.
  - by rewrite (create_vector_store_not_opened self reset w e w1 Hopen).
Qed.

(** X6.  Whether [create_vector_store] returns or raises, what it returns
    and what it raises do not depend on the reset flag: a reset never
    turns a working store into a failure, nor hides one. *)
Theorem create_vector_store_outcome_ignores_reset
  (self : IngestionPipeline) (w : World) :
  fst (create_vector_store self true w) = fst (create_vector_store self false w).
Proof. by rewrite !create_vector_store_outcome. Qed.

(** X7.  [create_vector_store] changes at most the configured collection
    of the client it opens: with or without reset, whether it returns or
    raises, every other collection of every store holds what it held. *)
Theorem create_vector_store_touches_one_collection
  (self : IngestionPipeline) (reset : bool) (w : World) (c : Client) (name : string) :
  (c, name) <> (client_of (config self), vector_db_collection_name (config self)) ->
  stored (snd (create_vector_store self reset w)) c name = stored w c name.
Proof.
  intros Hne.
  destruct (open_client_spec self w)
    as (r & w1 & t & Hopen & _ & _ & _ & _ & _ & _ & _ & Hret & _).
  assert (Hst : stored w1 c name = stored w c name).
  { destruct (open_client_stored self w r w1 Hopen c name) as [H | [H H1]];
      [exact H | by rewrite H, H1]. }
  destruct r as [c0|e].
  - destruct (Hret c0 eq_refl) as (-> & [cols Hcols] & _).
    destruct (create_vector_store_opened self reset w w1 _ cols Hopen Hcols)
      as (w' & Hrun & _ & _ & Hch & _).
    rewrite Hrun. cbn [snd]. rewrite <- Hst. unfold stored. rewrite Hch.
    destruct (decide (client_of (config self) = c)) as [<-|Hc];
      [|by rewrite lookup_insert_ne].
    rewrite lookup_insert_eq, Hcols.
    assert (Hn : vector_db_collection_name (config self) <> name) by congruence.
    destruct reset; cbn [andb];
      repeat match goal with
        | |- context [match ?x with _ => _ end] => destruct x eqn:?
        end;
      rewrite ?lookup_insert_ne, ?lookup_delete_ne by done; done.
  - rewrite (create_vector_store_not_opened self reset w e w1 Hopen). exact Hst.
Qed.

(** The other collection of the stocked store survives a reset. *)
Lemma create_vector_store_touches_one_collection_witness :
  stored (snd (create_vector_store Sample.pipeline true Sample2.w_stocked))
         (PersistentClient "./chroma_db") "other"
  = Some [Sample2.old_entry].
Proof.
  refine (create_vector_store_touches_one_collection
            Sample.pipeline true Sample2.w_stocked
            (PersistentClient "./chroma_db") "other" _).
  discriminate.
Defined.

(** X8.  [create_vector_store] logs an error record exactly when it raises:
    a call that returns adds no error record, and a call that raises adds
    the one record "Failed to create vector store", with the message of the
    exception it raises. *)
Theorem create_vector_store_logs_failure
  (self : IngestionPipeline) (reset : bool) (w : World) :
  errors (log (snd (create_vector_store self reset w)))
  = errors (log w)
    ++ match fst (create_vector_store self reset w) with
       | Raise e => [failure "Failed to create vector store" e]
       | Return _ => []
       end.
Proof.
  destruct (open_client_spec self w)
    as (r & w1 & t & Hopen & Hlog & _ & _ & _ & _ & _ & _ & Hret & _).
  destruct r as [c|e].
  - destruct (Hret c eq_refl) as (Hc & [cols Hcols] & _). rewrite <- Hc in Hcols.
    destruct (create_vector_store_opened self reset w w1 c cols Hopen Hcols)
      as (w' & Hrun & Hlog' & _).
    rewrite Hrun. cbn [fst snd]. rewrite Hlog', Hlog, !errors_app. f_equal.
    destruct (chroma_error w1 _) as [e|];
      repeat match goal with
        | |- context [if ?b then _ else _] => destruct b
        end; reflexivity.
  - rewrite (create_vector_store_not_opened self reset w e w1 Hopen).
    cbn [fst snd]. by rewrite log_observe, errors_app, Hlog.
Qed.

(** X9.  When the client cannot be opened, [create_vector_store] raises the
    error of the opening, and, even with reset, asks for no deletion and
    leaves every store as it is. *)
Theorem create_vector_store_unopened
  (self : IngestionPipeline) (reset : bool) (w : World) (e : Exception) (w1 : World) :
  open_client self w = (Raise e, w1) ->
  exists w',
    create_vector_store self reset w = (Raise e, w')
    /\ chroma w' = chroma w
    /\ deletions (trace w') = deletions (trace w).
Proof.
  intros Hopen.
  rewrite (create_vector_store_not_opened self reset w e w1 Hopen).
  eexists. split; [reflexivity|]. autorewrite with world. rewrite app_nil_r.
  split; [by apply (open_client_failed self w e)|].
  destruct (open_client_spec self w)
    as (r & w1' & t & Hopen' & _ & Htr & _ & _ & _ & _ & _ & _ & Hdel & _).
  rewrite Hopen in Hopen'. injection Hopen' as <- <-.
  by rewrite Htr, deletions_app, Hdel, app_nil_r.
Qed.

(** The persistence directory is a regular file: [os.makedirs] fails. *)
Lemma create_vector_store_unopened_witness :
  exists w',
    create_vector_store Sample.pipeline true Sample2.w_blocked
    = (Raise (mkExn "FileExistsError" "[Errno 17] File exists: './chroma_db'"), w')
    /\ chroma w' = chroma Sample2.w_blocked.
Proof.
  destruct (create_vector_store_unopened Sample.pipeline true Sample2.w_blocked
              (mkExn "FileExistsError" "[Errno 17] File exists: './chroma_db'")
              (snd (open_client Sample.pipeline Sample2.w_blocked)) eq_refl)
    as (w' & Hrun & Hch & _).
  exists w'. split; [exact Hrun | exact Hch].
Defined.

(** ** The steps of [run] *)

Lemma directories_made_app t1 t2 :
  directories_made (t1 ++ t2) = directories_made t1 ++ directories_made t2.
Proof. apply flat_map_app. Qed.

Lemma loader_events_no_directory t :
  forallb is_loader_event t = true -> directories_made t = [].
Proof.
  induction t as [|ev t IH]; [done|]. cbn [forallb].
  intros [Hev Ht]%andb_true_iff.
  change (directories_made (ev :: t))
    with (match ev with EvMakedirs p => [p] | _ => [] end ++ directories_made t).
  rewrite (IH Ht). by destruct ev.
Qed.

(** What [create_vector_store] leaves: more records, more calls, all of
    them to the store; the reader, the indexer, the settings and the
    dispositions of the backend as before.  The one directory it may ask
    for is the persistence directory of a local store; with a remote host
    the file system is as before. *)
Lemma create_vector_store_world self reset w :
  exists l t,
    log (snd (create_vector_store self reset w)) = log w ++ l
    /\ trace (snd (create_vector_store self reset w)) = trace w ++ t
    /\ forallb is_store_event t = true
    /\ chroma_error (snd (create_vector_store self reset w)) = chroma_error w
    /\ indexing (snd (create_vector_store self reset w)) = indexing w
    /\ settings (snd (create_vector_store self reset w)) = settings w
    /\ docling (snd (create_vector_store self reset w)) = docling w
    /\ partial_index (snd (create_vector_store self reset w)) = partial_index w
    /\ (if String.eqb (vector_db_host (config self)) "localhost"
        then directories_made t
             = [default "./chroma_db" (vector_db_persist_directory (config self))]
        else directories_made t = []
             /\ fs (snd (create_vector_store self reset w)) = fs w).
Proof.
  destruct (open_client_spec self w)
    as (r & w1 & t & Hopen & Hlog & Htr & Herr & Hix & Hset & Hdoc & _ & Hret & _
        & Hhost & Hpart & _).
  assert (Ht : forallb is_store_event t = true).
  { destruct (String.eqb (vector_db_host (config self)) "localhost").
    - by destruct Hhost as ([-> | ->] & _).
    - by destruct Hhost as [-> _]. }
  assert (Hmade : if String.eqb (vector_db_host (config self)) "localhost"
                  then directories_made t
                       = [default "./chroma_db"
                                  (vector_db_persist_directory (config self))]
                  else directories_made t = [] /\ fs w1 = fs w).
  { destruct (String.eqb (vector_db_host (config self)) "localhost").
    - by destruct Hhost as ([-> | ->] & _).
    - by destruct Hhost as [-> ->]. }
  destruct r as [c|e].
  - destruct (Hret c eq_refl) as (Hc & [cols Hcols] & _). rewrite <- Hc in Hcols.
    destruct (create_vector_store_opened self reset w w1 c cols Hopen Hcols)
      as (w' & Hrun & Hlog' & Htr' & _ & Hfs' & Herr' & Hix' & Hset' & Hdoc' & Hpart').
    rewrite Hrun. cbn [snd]. rewrite Hlog', Htr', Hlog, Htr, <- app_assoc, Hfs'.
    eexists _, _. split; [reflexivity|]. split; [reflexivity|].
    split; [rewrite forallb_app, Ht; by destruct reset|].
    split; [congruence|]. split; [congruence|]. split; [congruence|].
    split; [congruence|]. split; [congruence|].
    rewrite directories_made_app.
    destruct (String.eqb (vector_db_host (config self)) "localhost").
    + rewrite Hmade. by destruct reset.
    + destruct Hmade as [-> ->]. by destruct reset.
  - rewrite (create_vector_store_not_opened self reset w e w1 Hopen). cbn [snd].
    autorewrite with world. rewrite app_nil_r, Hlog, Htr.
    eexists _, _. split; [reflexivity|]. split; [reflexivity|].
    split; [exact Ht|]. split; [congruence|]. split; [congruence|].
    split; [congruence|]. split; [congruence|]. split; [congruence|]. exact Hmade.
Qed.

(** The indexer, when it returns, and when it raises. *)
Lemma from_documents_returned documents vs w index w' :
  VectorStoreIndex_from_documents documents vs w = (Return index, w') ->
  indexing w (settings w) documents = Return (index_entries index)
  /\ index_store index = vs.
Proof.
  rewrite from_documents_cases.
  destruct (indexing w (settings w) documents) as [entries|e]; [|discriminate].
  destruct (chroma_error w _); [discriminate|].
  destruct (chroma w !! _) as [cols|]; [|discriminate].
  destruct (cols !! _); [|discriminate].
  by intros [= <- <-].
Qed.

Lemma from_documents_raised documents vs w e w' :
  VectorStoreIndex_from_documents documents vs w = (Raise e, w') ->
  forall old,
    stored w (collection_client (chroma_collection vs))
             (collection_name (chroma_collection vs)) = Some old ->
    stored w' (collection_client (chroma_collection vs))
              (collection_name (chroma_collection vs))
    = Some (old ++ partial_index w (settings w) documents).
Proof.
  rewrite from_documents_cases. intros Hrun old Hold.
  set (w0 := observe [] [EvFromDocuments vs (length documents)] w) in *.
  assert (Hkeep : stored (snd (keep_partial (chroma_collection vs)
                                 (partial_index w (settings w) documents) w0))
                         (collection_client (chroma_collection vs))
                         (collection_name (chroma_collection vs))
                  = Some (old ++ partial_index w (settings w) documents)).
  { destruct (run_keep_partial (chroma_collection vs)
                (partial_index w (settings w) documents) w0)
      as (ch & -> & Hst & _).
    cbn [snd]. by apply Hst. }
  unfold stored in Hold.
  destruct (indexing w (settings w) documents) as [entries|e0];
    [|by injection Hrun as <- <-].
  destruct (chroma_error w _); [by injection Hrun as <- <-|].
  destruct (chroma w !! _) as [cols|]; [|discriminate].
  destruct (cols !! _); discriminate.
Qed.

(** The indexer changes nothing but the stores. *)
Lemma from_documents_world documents vs w :
  exists ch,
    snd (VectorStoreIndex_from_documents documents vs w)
    = observe [] [EvFromDocuments vs (length documents)] (set_chroma ch w).
Proof.
  assert (Hsame : set_chroma (chroma w) w = w) by (by destruct w).
  rewrite from_documents_cases.
  set (w0 := observe [] [EvFromDocuments vs (length documents)] w).
  assert (Hfail : exists ch,
             snd (keep_partial (chroma_collection vs)
                    (partial_index w (settings w) documents) w0)
             = observe [] [EvFromDocuments vs (length documents)] (set_chroma ch w)).
  { destruct (run_keep_partial (chroma_collection vs)
                (partial_index w (settings w) documents) w0) as (ch & -> & _).
    by exists ch. }
  destruct (indexing w (settings w) documents) as [entries|e]; [|exact Hfail].
  destruct (chroma_error w _); [exact Hfail|].
  destruct (chroma w !! _) as [cols|]; [|exists (chroma w); by rewrite Hsame].
  destruct (cols !! _); [by eexists | exists (chroma w); by rewrite Hsame].
Qed.

(** A vector store was returned: the client had opened, and the backend
    served get-or-create. *)
Lemma create_vector_store_returned self reset w vs w' :
  create_vector_store self reset w = (Return vs, w') ->
  vs = ChromaVectorStore
         (mkCollection (client_of (config self))
                       (vector_db_collection_name (config self)))
  /\ chroma_error w (OpGetOrCreate (client_of (config self))
                       (vector_db_collection_name (config self))) = None
  /\ exists w1, open_client self w = (Return (client_of (config self)), w1).
Proof.
  intros Hrun. pose proof (create_vector_store_outcome self reset w) as Hout.
  rewrite Hrun in Hout. cbn [fst] in Hout.
  destruct (open_client_spec self w)
    as (r & w1 & t & Hopen & _ & _ & Herr & _ & _ & _ & _ & Hret & _).
  rewrite Hopen in Hout. destruct r as [c|e]; [|discriminate].
  destruct (Hret c eq_refl) as (-> & _). rewrite Herr in Hout.
  destruct (chroma_error w _) eqn:E; [discriminate|].
  injection Hout as ->. split; [done|]. split; [done|]. by exists w1.
Qed.

(** ** More about [run] *)

(** The log of a run that raises. *)
Lemma run_raised_log self reset w e w' :
  run self reset w = (Raise e, w') ->
  exists l,
    log w' = log w ++ starting reset :: l ++ [failure "Ingestion pipeline failed" e].
Proof.
  rewrite run_cases.
  destruct (load_documents_world self (Path_of (ingestion_data_directory (config self)))
              (observe [starting reset] [] w)) as (l1 & t1 & Hl & _).
  destruct (load_documents self _ _) as [[[|doc docs]|e1] wl]; cbn [snd] in Hl; subst wl.
  - discriminate.
  - destruct (create_vector_store_world self reset
                (observe l1 (EvStat
                   (str (Path_of (ingestion_data_directory (config self)))) :: t1)
                   (observe [starting reset] [] w)))
      as (l3 & t3 & Hlog3 & _).
    destruct (create_vector_store self reset _) as [[vs|e2] wv]; cbn [snd] in Hlog3;
      rewrite !log_observe in Hlog3.
    + destruct (from_documents_spec (doc :: docs) vs
                  (observe [mkLog INFO "Building vector index..." []] [] wv))
        as (r & wi & Hi & Hlogi & _).
      rewrite Hi. destruct r as [index|e3]; [discriminate|].
      intros [= <- <-].
      exists (l1 ++ l3 ++ [mkLog INFO "Building vector index..." []]).
      rewrite log_observe, Hlogi, log_observe, Hlog3.
      rewrite <- !app_assoc. reflexivity.
    + intros [= <- <-]. exists (l1 ++ l3).
      rewrite log_observe, Hlog3. rewrite <- !app_assoc. reflexivity.
  - intros [= <- <-]. exists l1. rewrite !log_observe.
    rewrite <- !app_assoc. reflexivity.
Qed.

(** X10.  When [run] raises, whatever step failed, the last record of its
    log is "Ingestion pipeline failed" with the message of the exception it
    raises, and its first record is "Starting ingestion pipeline". *)
Theorem run_logs_failure
  (self : IngestionPipeline) (reset : bool) (w : World) (e : Exception) (w' : World) :
  run self reset w = (Raise e, w') ->
  exists l,
    log w' = log w ++ starting reset :: l ++ [failure "Ingestion pipeline failed" e].
Proof. apply run_raised_log. Qed.

(** The data directory cannot be examined. *)
Lemma run_logs_failure_witness :
  exists l,
    log (snd (run Sample.pipeline false Sample2.w_denied))
    = starting false
      :: l ++ [failure "Ingestion pipeline failed"
                       (mkExn "PermissionError" "[Errno 13] Permission denied: 'data'")].
Proof.
  apply (run_logs_failure Sample.pipeline false Sample2.w_denied
           (mkExn "PermissionError" "[Errno 13] Permission denied: 'data'")
           (snd (run Sample.pipeline false Sample2.w_denied))).
  vm_compute. reflexivity.
Defined.

(** The calls of a run, in two parts. *)
Lemma run_loads_before_storing_helper self reset w :
  exists t1 t2,
    trace (snd (run self reset w)) = trace w ++ t1 ++ t2
    /\ forallb is_loader_event t1 = true
    /\ forallb is_store_event t2 = true
    /\ match fst (load_documents self
                    (Path_of (ingestion_data_directory (config self)))
                    (observe [starting reset] [] w)) with
       | Return (_ :: _) => True
       | _ => t2 = []
       end.
Proof.
  rewrite run_cases.
  destruct (load_documents_world self (Path_of (ingestion_data_directory (config self)))
              (observe [starting reset] [] w)) as (l1 & t1 & Hl & Ht1).
  destruct (load_documents self _ _) as [[[|doc docs]|e1] wl]; cbn [fst snd] in *;
    subst wl.
  - exists (EvStat (str (Path_of (ingestion_data_directory (config self)))) :: t1), [].
    autorewrite with world. by rewrite !app_nil_r.
  - destruct (create_vector_store_world self reset
                (observe l1 (EvStat
                   (str (Path_of (ingestion_data_directory (config self)))) :: t1)
                   (observe [starting reset] [] w)))
      as (l3 & t3 & _ & Htr3 & Ht3 & _).
    destruct (create_vector_store self reset _) as [[vs|e2] wv]; cbn [snd] in Htr3.
    + destruct (from_documents_spec (doc :: docs) vs
                  (observe [mkLog INFO "Building vector index..." []] [] wv))
        as (r & wi & Hi & _ & Htri & _).
      rewrite Hi.
      exists (EvStat (str (Path_of (ingestion_data_directory (config self)))) :: t1),
             (t3 ++ [EvFromDocuments vs (length (doc :: docs))]).
      assert (Htr : trace wi
                    = trace w
                      ++ (EvStat (str (Path_of (ingestion_data_directory (config self))))
                          :: t1)
                      ++ t3 ++ [EvFromDocuments vs (length (doc :: docs))]).
      { rewrite Htri. autorewrite with world in *. rewrite Htr3.
        by rewrite <- !app_assoc. }
      split; [destruct r; cbn [snd]; autorewrite with world; by rewrite app_nil_r|].
      split; [done|]. split; [|done]. by rewrite forallb_app, Ht3.
    + exists (EvStat (str (Path_of (ingestion_data_directory (config self)))) :: t1), t3.
      cbn [snd]. autorewrite with world in *. by rewrite app_nil_r, Htr3, <- !app_assoc.
  - exists (EvStat (str (Path_of (ingestion_data_directory (config self)))) :: t1), [].
    autorewrite with world. by rewrite !app_nil_r.
Qed.

(** X11.  [run] loads before it stores: its calls are first calls of the
    loading of documents (stat, glob, parser), then calls to the vector
    store and the indexer; no file is parsed once the store has been
    opened, and a run that raises while loading never reaches the store. *)
Theorem run_loads_before_storing
  (self : IngestionPipeline) (reset : bool) (w : World) :
  exists t1 t2,
    trace (snd (run self reset w)) = trace w ++ t1 ++ t2
    /\ forallb is_loader_event t1 = true
    /\ forallb is_store_event t2 = true
    /\ match fst (load_documents self
                    (Path_of (ingestion_data_directory (config self)))
                    (observe [starting reset] [] w)) with
       | Return (_ :: _) => True
       | _ => t2 = []
       end.
Proof. apply run_loads_before_storing_helper. Qed.

(** X12.  A run with reset that returns an index, the backend having
    served the deletion, leaves in the configured collection exactly the
    entries of that index: nothing of what the collection held before is
    left. *)
Theorem run_reset_replaces_collection
  (self : IngestionPipeline) (w : World) (index : Index) (w' : World) :
  run self true w = (Return (Some index), w') ->
  chroma_error w (OpDelete (client_of (config self))
                    (vector_db_collection_name (config self))) = None ->
  stored w' (client_of (config self)) (vector_db_collection_name (config self))
  = Some (index_entries index).
Proof.
  rewrite run_cases. intros Hrun Hdel.
  destruct (load_documents_world self (Path_of (ingestion_data_directory (config self)))
              (observe [starting true] [] w)) as (l1 & t1 & Hl & _).
  destruct (load_documents self _ _) as [[[|doc docs]|e1] wl]; cbn [snd] in Hl;
    subst wl; try discriminate.
  destruct (create_vector_store self true _) as [[vs|e2] wv] eqn:Hv; [|discriminate].
  destruct (create_vector_store_returned _ _ _ _ _ Hv) as (-> & Hgoc & w1 & Hopen).
  destruct (reset_once self _ _ _ Hopen Hgoc)
    as (wv' & Hv' & _ & _ & _ & _ & _ & Hfresh).
  rewrite Hv in Hv'. injection Hv' as <-.
  autorewrite with world in Hfresh. rewrite Hdel in Hfresh.
  destruct (from_documents_spec (doc :: docs)
              (ChromaVectorStore
                 (mkCollection (client_of (config self))
                               (vector_db_collection_name (config self))))
              (observe [mkLog INFO "Building vector index..." []] [] wv))
    as (r & wi & Hi & _ & _ & _ & Hret).
  rewrite Hi in Hrun. destruct r as [index'|e3]; [|discriminate].
  injection Hrun as <- <-. rewrite stored_observe.
  cbn [chroma_collection collection_client collection_name] in Hret.
  rewrite (Hret index' eq_refl), stored_observe, Hfresh. reflexivity.
Qed.

(** The stocked store: the earlier entry is gone. *)
Lemma run_reset_replaces_collection_witness :
  stored Sample2.w_stocked (PersistentClient "./chroma_db") "n26_docs"
  = Some [Sample2.old_entry]
  /\ stored (snd (run Sample.pipeline true Sample2.w_stocked))
            (PersistentClient "./chroma_db") "n26_docs"
     = Some [mkEntry "text of data/c.pdf" [("source", "data/c.pdf")];
             mkEntry "text of data/a.txt" [("source", "data/a.txt")]].
Proof.
  split; [vm_compute; reflexivity|].
  apply (run_reset_replaces_collection Sample.pipeline Sample2.w_stocked
           (mkIndex (ChromaVectorStore
                       (mkCollection (PersistentClient "./chroma_db") "n26_docs"))
                    [mkEntry "text of data/c.pdf" [("source", "data/c.pdf")];
                     mkEntry "text of data/a.txt" [("source", "data/a.txt")]])
           (snd (run Sample.pipeline true Sample2.w_stocked))).
  - vm_compute. reflexivity.
  - vm_compute. reflexivity.
Defined.

(** X13.  A reset is not undone by a later failure: when the documents
    load, the store opens with reset and the deletion is served, and then
    the building of the index raises, [run] raises that exception and the
    configured collection holds what the failing call had stored by then
    and nothing else: whatever it held before the run is gone. *)
Theorem run_reset_not_rolled_back
  (self : IngestionPipeline) (w : World)
  (doc : Document) (docs : list Document) (wl : World)
  (vs : VectorStore) (wv : World) (e : Exception) :
  load_documents self (Path_of (ingestion_data_directory (config self)))
    (observe [starting true] [] w) = (Return (doc :: docs), wl) ->
  create_vector_store self true wl = (Return vs, wv) ->
  fst (VectorStoreIndex_from_documents (doc :: docs) vs
         (observe [mkLog INFO "Building vector index..." []] [] wv)) = Raise e ->
  chroma_error w (OpDelete (client_of (config self))
                    (vector_db_collection_name (config self))) = None ->
  exists w',
    run self true w = (Raise e, w')
    /\ stored w' (client_of (config self)) (vector_db_collection_name (config self))
       = Some (partial_index w (settings w) (doc :: docs)).
Proof.
  intros Hl Hv Hi Hdel. rewrite run_cases, Hl, Hv.
  destruct (load_documents_world self (Path_of (ingestion_data_directory (config self)))
              (observe [starting true] [] w)) as (l1 & t1 & Hwl & _).
  rewrite Hl in Hwl. cbn [snd] in Hwl. subst wl.
  destruct (create_vector_store_returned _ _ _ _ _ Hv) as (-> & Hgoc & w1 & Hopen).
  destruct (reset_once self _ _ _ Hopen Hgoc)
    as (wv' & Hv' & _ & _ & _ & _ & _ & Hfresh).
  rewrite Hv in Hv'. injection Hv' as <-.
  autorewrite with world in Hfresh. rewrite Hdel in Hfresh.
  match type of Hv with
  | create_vector_store _ _ ?w0 = _ =>
      destruct (create_vector_store_world self true w0)
        as (l3 & t3 & _ & _ & _ & _ & _ & Hset & _ & Hpart & _)
  end.
  rewrite Hv in Hset, Hpart. cbn [snd] in Hset, Hpart.
  autorewrite with world in Hset, Hpart.
  destruct (VectorStoreIndex_from_documents _ _ _) as [r wi] eqn:Hrun.
  cbn [fst] in Hi. subst r. eexists. split; [reflexivity|].
  rewrite stored_observe.
  pose proof (from_documents_raised _ _ _ _ _ Hrun []) as Hst.
  cbn [chroma_collection collection_client collection_name] in Hst.
  rewrite Hst by (by rewrite stored_observe).
  autorewrite with world. by rewrite Hset, Hpart.
Qed.

(** The stocked store, and an embedding provider that goes down after the
    entry of the first document was stored. *)
Lemma run_reset_not_rolled_back_witness :
  stored Sample2.w_no_embedding (PersistentClient "./chroma_db") "n26_docs"
  = Some [Sample2.old_entry]
  /\ exists w',
       run Sample.pipeline true Sample2.w_no_embedding
       = (Raise (mkExn "ConnectionError" "embedding API unreachable"), w')
       /\ stored w' (PersistentClient "./chroma_db") "n26_docs"
          = Some [mkEntry "text of data/c.pdf" [("source", "data/c.pdf")]].
Proof.
  split; [vm_compute; reflexivity|].
  destruct (run_reset_not_rolled_back Sample.pipeline Sample2.w_no_embedding
           (Sample.doc "data/c.pdf") [Sample.doc "data/a.txt"]
           (snd (load_documents Sample.pipeline (Path_of "data")
                   (observe [starting true] [] Sample2.w_no_embedding)))
           (ChromaVectorStore (mkCollection (PersistentClient "./chroma_db") "n26_docs"))
           (snd (create_vector_store Sample.pipeline true
                   (snd (load_documents Sample.pipeline (Path_of "data")
                           (observe [starting true] [] Sample2.w_no_embedding)))))
           (mkExn "ConnectionError" "embedding API unreachable"))
    as (w' & Hrun & Hst).
  - vm_compute. reflexivity.
  - vm_compute. reflexivity.
  - vm_compute. reflexivity.
  - vm_compute. reflexivity.
  - exists w'. split; [exact Hrun|]. refine (eq_trans Hst _). vm_compute. reflexivity.
Defined.

(** X14.  When [run] returns an index, documents were loaded, and the
    index is on the configured collection of the client the host selects;
    its entries are what chunking and embedding make of the loaded
    documents under the global settings; and the last record of the log is
    "Ingestion pipeline completed successfully", whose total is the number
    of documents loaded. *)
Theorem run_returns_index_of_documents
  (self : IngestionPipeline) (reset : bool) (w : World) (index : Index) (w' : World) :
  run self reset w = (Return (Some index), w') ->
  exists documents,
    fst (load_documents self (Path_of (ingestion_data_directory (config self)))
           (observe [starting reset] [] w)) = Return documents
    /\ documents <> []
    /\ indexing w (settings w) documents = Return (index_entries index)
    /\ index_store index
       = ChromaVectorStore
           (mkCollection (client_of (config self))
                         (vector_db_collection_name (config self)))
    /\ exists l,
         log w'
         = l ++ [mkLog INFO "Ingestion pipeline completed successfully"
                       [("total_documents", JInt (Z.of_nat (length documents)));
                        ("total_time_seconds", JSeconds)]].
Proof.
  rewrite run_cases. intros Hrun.
  destruct (load_documents_world self (Path_of (ingestion_data_directory (config self)))
              (observe [starting reset] [] w)) as (l1 & t1 & Hl & _).
  destruct (load_documents self _ _) as [[[|doc docs]|e1] wl]; cbn [snd] in Hl;
    subst wl; try discriminate.
  destruct (create_vector_store_world self reset
              (observe l1 (EvStat
                 (str (Path_of (ingestion_data_directory (config self)))) :: t1)
                 (observe [starting reset] [] w)))
    as (l3 & t3 & _ & _ & _ & _ & Hix & Hset & _).
  destruct (create_vector_store self reset _) as [[vs|e2] wv] eqn:Hv; [|discriminate].
  destruct (create_vector_store_returned _ _ _ _ _ Hv) as (-> & _).
  cbn [snd] in Hix, Hset. autorewrite with world in Hix, Hset.
  destruct (VectorStoreIndex_from_documents _ _ _) as [[index'|e3] wi] eqn:Hi;
    [|discriminate].
  injection Hrun as <- <-.
  apply from_documents_returned in Hi as [Hentries Hstore].
  autorewrite with world in Hentries. rewrite Hix, Hset in Hentries.
  exists (doc :: docs). split; [done|]. split; [done|]. split; [done|].
  split; [done|]. rewrite log_observe.
  exists (log wi ++ [mkLog INFO "Vector index built successfully"
                           [("latency_seconds", JSeconds)]]).
  by rewrite <- app_assoc.
Qed.

(** A run over the directory of two files. *)
Lemma run_returns_index_of_documents_witness :
  exists documents,
    fst (load_documents Sample.pipeline (Path_of "data")
           (observe [starting false] [] Sample.w_two)) = Return documents
    /\ indexing Sample.w_two (settings Sample.w_two) documents
       = Return [mkEntry "text of data/c.pdf" [("source", "data/c.pdf")];
                 mkEntry "text of data/a.txt" [("source", "data/a.txt")]].
Proof.
  destruct (run_returns_index_of_documents Sample.pipeline false Sample.w_two
              (mkIndex (ChromaVectorStore
                          (mkCollection (PersistentClient "./chroma_db") "n26_docs"))
                       [mkEntry "text of data/c.pdf" [("source", "data/c.pdf")];
                        mkEntry "text of data/a.txt" [("source", "data/a.txt")]])
              (snd (run Sample.pipeline false Sample.w_two)))
    as (documents & Hl & _ & Hix & _).
  - vm_compute. reflexivity.
  - exists documents. split; [exact Hl | exact Hix].
Defined.

Lemma docs_of_all_fail w files :
  (forall p, In p files -> fails w p = true) -> flat_map (docs_of w) files = [].
Proof.
  induction files as [|p files IH]; intros Hall; [done|].
  cbn [flat_map]. rewrite IH by (intros q Hq; apply Hall; by right).
  specialize (Hall p (or_introl eq_refl)). unfold fails in Hall. unfold docs_of.
  by destruct (docling w (str p)).
Qed.

(** X15.  When every matched file of the data directory fails to parse,
    [run] returns [None] without raising: the last record of its log is
    the error "No documents loaded", it made calls of the loading of
    documents only, and the stores are as before. *)
Theorem run_all_files_fail
  (self : IngestionPipeline) (reset : bool) (w : World) (entries : list string) :
  fs w !! str (Path_of (ingestion_data_directory (config self))) = Some (Dir entries) ->
  (forall p,
     In p (matched_files (Path_of (ingestion_data_directory (config self)))
             (ingestion_supported_formats (config self)) entries) ->
     fails w p = true) ->
  exists w' l t,
    run self reset w = (Return None, w')
    /\ log w' = log w ++ starting reset :: l ++ [mkLog ERROR "No documents loaded" []]
    /\ trace w' = trace w ++ t /\ forallb is_loader_event t = true
    /\ chroma w' = chroma w.
Proof.
  intros E Hall. rewrite run_cases.
  set (d := Path_of (ingestion_data_directory (config self))) in *.
  pose proof (load_documents_returns self d (observe [starting reset] [] w) entries E)
    as Hret.
  assert (Hnone : flat_map (docs_of (observe [starting reset] [] w))
                    (matched_files d (ingestion_supported_formats (config self)) entries)
                  = [])
    by (apply docs_of_all_fail; intros p Hp; unfold fails; rewrite docling_observe;
        exact (Hall p Hp)).
  rewrite Hnone in Hret.
  destruct (load_documents_world self d (observe [starting reset] [] w))
    as (l1 & t1 & Hl & Ht).
  destruct (load_documents self d _) as [r wl]. cbn [fst snd] in *. subst r wl.
  eexists _, l1, (EvStat (str d) :: t1). split; [reflexivity|].
  autorewrite with world. rewrite ?app_nil_r, <- ?app_assoc. cbn [app].
  by repeat split.
Qed.

(** A directory whose only file does not parse. *)
Lemma run_all_files_fail_witness :
  exists w' l t,
    run Sample.pipeline true Sample2.w_all_bad = (Return None, w')
    /\ log w' = starting true :: l ++ [mkLog ERROR "No documents loaded" []]
    /\ trace w' = t /\ forallb is_loader_event t = true.
Proof.
  destruct (run_all_files_fail Sample.pipeline true Sample2.w_all_bad ["b.pdf"])
    as (w' & l & t & Hrun & Hlog & Htr & Ht & _).
  - vm_compute. reflexivity.
  - intros p [<-|[]]. vm_compute. reflexivity.
  - exists w', l, t. split; [exact Hrun|]. split; [exact Hlog|]. split; [exact Htr|].
    exact Ht.
Defined.

(** X16.  [run] never assigns the global settings.  The one directory
    whose creation it may ask for is the persistence directory of a local
    store, and it asks at most once; with a remote host it asks for none
    and leaves the file system as it is. *)
Theorem run_leaves_settings_and_files
  (self : IngestionPipeline) (reset : bool) (w : World) :
  settings (snd (run self reset w)) = settings w
  /\ (exists t,
        trace (snd (run self reset w)) = trace w ++ t
        /\ (directories_made t = []
            \/ String.eqb (vector_db_host (config self)) "localhost" = true
               /\ directories_made t
                  = [default "./chroma_db" (vector_db_persist_directory (config self))]))
  /\ (String.eqb (vector_db_host (config self)) "localhost" = false ->
      fs (snd (run self reset w)) = fs w).
Proof.
  rewrite run_cases.
  destruct (load_documents_world self (Path_of (ingestion_data_directory (config self)))
              (observe [starting reset] [] w)) as (l1 & t1 & Hl & Ht1).
  set (stat := EvStat (str (Path_of (ingestion_data_directory (config self))))) in *.
  assert (Hload : directories_made (stat :: t1) = [])
    by (by apply loader_events_no_directory).
  destruct (load_documents self _ _) as [[[|doc docs]|e1] wl]; cbn [snd] in Hl;
    subst wl.
  - cbn [snd]. autorewrite with world. split; [done|]. split; [|done].
    eexists. split; [reflexivity|]. left. by rewrite app_nil_r.
  - destruct (create_vector_store_world self reset
                (observe l1 (stat :: t1) (observe [starting reset] [] w)))
      as (l3 & t3 & _ & Htr & _ & _ & _ & Hset & _ & _ & Hmade).
    destruct (create_vector_store self reset _) as [[vs|e2] wv];
      cbn [snd] in Hset, Htr, Hmade; autorewrite with world in Hset, Htr, Hmade.
    + destruct (from_documents_world (doc :: docs) vs
                  (observe [mkLog INFO "Building vector index..." []] [] wv)) as [ch Hw].
      assert (Hall : directories_made
                       ((stat :: t1) ++ t3
                        ++ [EvFromDocuments vs (length (doc :: docs))])
                     = directories_made t3).
      { rewrite !directories_made_app, Hload. cbn. by rewrite app_nil_r. }
      destruct (VectorStoreIndex_from_documents _ _ _) as [[index|e3] wi];
        cbn [snd] in Hw; subst wi; cbn [snd]; autorewrite with world;
        cbn [settings fs trace set_chroma]; autorewrite with world;
        (split; [done|]); rewrite Htr, ?app_nil_r, <- !app_assoc;
        (split; [exists ((stat :: t1) ++ t3
                         ++ [EvFromDocuments vs (length (doc :: docs))]);
                 split; [reflexivity|]; rewrite Hall;
                 destruct (String.eqb (vector_db_host (config self)) "localhost");
                 [by right | left; by destruct Hmade]
               | intros Hhost; rewrite Hhost in Hmade; by destruct Hmade]).
    + cbn [snd]. autorewrite with world. split; [done|].
      rewrite Htr, ?app_nil_r, <- !app_assoc.
      split; [exists ((stat :: t1) ++ t3); split; [reflexivity|];
              rewrite directories_made_app, Hload;
              destruct (String.eqb (vector_db_host (config self)) "localhost");
              [by right | left; by destruct Hmade]
             | intros Hhost; rewrite Hhost in Hmade; by destruct Hmade].
  - cbn [snd]. autorewrite with world. split; [done|]. split; [|done].
    eexists. split; [reflexivity|]. left. by rewrite app_nil_r.
Qed.

(** ** More about [__init__] *)

(** What the construction leaves, whether it returns or raises: more
    records, one call, and possibly other settings. *)
Lemma init_world config_path w :
  exists l s,
    snd (init config_path w) = observe l [EvOpen config_path] (set_settings s w)
    /\ errors l = [].
Proof.
  rewrite init_cases.
  assert (Hsame : forall l,
             errors l = [] ->
             exists l' s,
               observe l [EvOpen config_path] w
               = observe l' [EvOpen config_path] (set_settings s w)
               /\ errors l' = []).
  { intros l Hl. exists l, (settings w). by rewrite set_settings_same. }
  destruct (yaml_files w !! config_path) as [[cfg|]|]; cbn [snd]; [|by apply Hsame..].
  destruct (StructuredLogger.threshold_of w _); cbn [snd]; [|by apply Hsame].
  destruct (falsy _); cbn [snd]; [by apply Hsame|].
  destruct (configure_spec cfg (default "" (environ w !! embedding_api_key_env cfg)) w)
    as (r & s & -> & _).
  destruct r as [[]|e]; cbn [snd]; by eexists _, _.
Qed.





(** ** [main] *)

Lemma main_cases args w :
  main args w =
  match init (default "../config.yaml" (arg_config args)) w with
  | (Raise e, w1) => (mkExit 1 [failure "Pipeline execution failed" e], w1)
  | (Return pipeline, w1) =>
      match run pipeline (arg_reset args) w1 with
      | (Raise e, w2) => (mkExit 1 [failure "Pipeline execution failed" e], w2)
      | (Return _, w2) => (mkExit 0 [], w2)
      end
  end.
Proof.
  unfold main. rewrite run_bind.
  destruct (init _ w) as [[pipeline|e] w1]; [|reflexivity].
  by destruct (run pipeline (arg_reset args) w1) as [[r|e] w2].
Qed.

(** X19.  Nothing to ingest is no failure of the process: when the
    pipeline is constructed and the loading of documents returns the empty
    list, [main] prints nothing and ends with exit status 0, the log
    ending with the error record "No documents loaded". *)
Theorem main_without_documents_exits_zero
  (args : Args) (w : World) (self : IngestionPipeline) (w1 w2 : World) :
  init (default "../config.yaml" (arg_config args)) w = (Return self, w1) ->
  load_documents self (Path_of (ingestion_data_directory (config self)))
    (observe [starting (arg_reset args)] [] w1) = (Return [], w2) ->
  main args w
  = (mkExit 0 [], observe [mkLog ERROR "No documents loaded" []] [] w2).
Proof.
  intros Hinit Hload. by rewrite main_cases, Hinit, run_cases, Hload.
Qed.

(** The data directory is missing. *)
Lemma main_without_documents_exits_zero_witness :
  exit_status (fst (main (mkArgs (Some "config.yaml") false) Sample.w_absent)) = 0%Z.
Proof.
  rewrite (main_without_documents_exits_zero
             (mkArgs (Some "config.yaml") false) Sample.w_absent
             (mkPipeline Sample.cfg 20)
             (snd (init "config.yaml" Sample.w_absent))
             (snd (load_documents (mkPipeline Sample.cfg 20) (Path_of "data")
                     (observe [starting false] []
                        (snd (init "config.yaml" Sample.w_absent)))))).
  - reflexivity.
  - vm_compute. reflexivity.
  - vm_compute. reflexivity.
Defined.

(** X20.  With the API key missing from the environment (unset or empty),
    the configuration file being readable and its logging level a level,
    [main] ends with exit status 1 after printing one error record with
    the message that names the variable; it has opened the configuration
    file and nothing else, and no error record is in the log. *)
Theorem main_missing_key_exits_one
  (args : Args) (w : World) (cfg : Config) (threshold : nat) :
  yaml_files w !! default "../config.yaml" (arg_config args) = Some (Some cfg) ->
  StructuredLogger.level_of_name (default "INFO" (logging_level cfg)) = Some threshold ->
  falsy (environ w !! embedding_api_key_env cfg) = true ->
  main args w
  = (mkExit 1 [mkLog ERROR "Pipeline execution failed"
                     [("error",
                       JStr ("Environment variable " +:+ embedding_api_key_env cfg
                             +:+ " not set"))]],
     observe [mkLog INFO "Ingestion pipeline initialized"
                    [("config", JStr (default "../config.yaml" (arg_config args)))]]
             [EvOpen (default "../config.yaml" (arg_config args))] w).
Proof.
  intros Hyaml Hlevel Hkey. rewrite main_cases, init_cases, Hyaml.
  unfold StructuredLogger.threshold_of. by rewrite Hlevel, Hkey.
Qed.

(** The environment without the key. *)
Lemma main_missing_key_exits_one_witness :
  fst (main (mkArgs (Some "config.yaml") true) Sample.w_nokey)
  = mkExit 1 [mkLog ERROR "Pipeline execution failed"
                    [("error", JStr "Environment variable GOOGLE_API_KEY not set")]].
Proof.
  rewrite (main_missing_key_exits_one (mkArgs (Some "config.yaml") true)
             Sample.w_nokey Sample.cfg 20).
  - reflexivity.
  - vm_compute. reflexivity.
  - vm_compute. reflexivity.
  - vm_compute. reflexivity.
Defined.

(** X21.  A failure of the run is reported twice with the same message:
    when the pipeline is constructed and [run] raises, [main] ends with
    exit status 1 after printing one error record with the message of the
    exception, and the last record of the log is "Ingestion pipeline
    failed" with that message. *)
Theorem main_reports_run_failure
  (args : Args) (w : World) (self : IngestionPipeline) (w1 : World)
  (e : Exception) (w2 : World) :
  init (default "../config.yaml" (arg_config args)) w = (Return self, w1) ->
  run self (arg_reset args) w1 = (Raise e, w2) ->
  main args w = (mkExit 1 [failure "Pipeline execution failed" e], w2)
  /\ exists l, log w2 = l ++ [failure "Ingestion pipeline failed" e].
Proof.
  intros Hinit Hrun. split; [by rewrite main_cases, Hinit, Hrun|].
  destruct (run_raised_log self (arg_reset args) w1 e w2 Hrun) as [l Hlog].
  exists (log w1 ++ starting (arg_reset args) :: l).
  rewrite Hlog, <- app_assoc. reflexivity.
Qed.

(** The embedding provider is down. *)
Lemma main_reports_run_failure_witness :
  fst (main (mkArgs (Some "config.yaml") true) Sample2.w_no_embedding)
  = mkExit 1 [failure "Pipeline execution failed"
                      (mkExn "ConnectionError" "embedding API unreachable")].
Proof.
  destruct (main_reports_run_failure (mkArgs (Some "config.yaml") true)
              Sample2.w_no_embedding (mkPipeline Sample.cfg 20)
              (snd (init "config.yaml" Sample2.w_no_embedding))
              (mkExn "ConnectionError" "embedding API unreachable")
              (snd (run (mkPipeline Sample.cfg 20) true
                      (snd (init "config.yaml" Sample2.w_no_embedding)))))
    as [Hmain _].
  - vm_compute. reflexivity.
  - vm_compute. reflexivity.
  - rewrite Hmain. reflexivity.
Defined.


